(** * The resilient command runner of the SAM002 notebook

    A shallow embedding of the [run] helper defined in the notebook
    [sam002-query-hdfs-in-sql-server.ipynb] (with [kubectl_hints] and
    [azdata_hints]), and the properties of it that the design document states.

    Python text is modelled by [string]; the bytes read from a pipe are taken
    to be already decoded.  Wall-clock values (start time, elapsed time) are
    left out of the messages that carry them. *)

From Stdlib Require Import ZArith Ascii String.
From stdpp Require Import base option list gmap strings.

Local Open Scope string_scope.
Local Open Scope Z_scope.
Local Open Scope list_scope.

(** ** Text primitives used by [run] *)

Module Text.

(** The double-quote character, and the line terminator. *)
Definition quote : ascii := "034"%char.
Definition dq : string := String quote EmptyString.
Definition nl : ascii := "010"%char.

(** [str.startswith]. *)
Fixpoint startswith (s p : string) : bool :=
  match p, s with
  | EmptyString, _ => true
  | String _ _, EmptyString => false
  | String a p', String b s' => if Ascii.eqb a b then startswith s' p' else false
  end.

(** [str.find]: index of the first occurrence of [sub] in [s], or [-1]. *)
Fixpoint find (s sub : string) : Z :=
  if startswith s sub then 0
  else match s with
       | EmptyString => -1
       | String _ s' => let i := find s' sub in if i =? -1 then -1 else i + 1
       end.

(** [str.replace old new] for a non-empty [old]: occurrences are replaced
    from left to right and do not overlap.  [skip] counts the characters of an
    occurrence that is being stepped over. *)
Fixpoint replace_from (skip : nat) (s old new : string) : string :=
  match s with
  | EmptyString => EmptyString
  | String c s' =>
      match skip with
      | S k => replace_from k s' old new
      | O => if startswith s old
             then new +:+ replace_from (Nat.pred (String.length old)) s' old new
             else String c (replace_from O s' old new)
      end
  end.

Definition replace (s old new : string) : string := replace_from O s old new.

(** Iterating [pipe.readline] up to the empty read: the lines of a stream,
    each one keeping its terminator; the last one may lack it. *)
Fixpoint readlines (s : string) : list string :=
  match s with
  | EmptyString => []
  | String c s' =>
      if Ascii.eqb c nl then String c EmptyString :: readlines s'
      else match readlines s' with
           | [] => [String c EmptyString]
           | l :: ls => String c l :: ls
           end
  end.

(** *** The summary-line pattern compiled by [re.compile]

    The pattern is two spaces, a quoted greedy group and, after a colon and a
    space, a second quoted greedy group.  [lit p s] consumes the literal [p];
    [dotstar s k] is one greedy group followed by the continuation [k], with
    backtracking: the longest run of characters other than the line terminator
    after which [k] succeeds. *)
Fixpoint lit (p s : string) : option string :=
  match p, s with
  | EmptyString, _ => Some s
  | String _ _, EmptyString => None
  | String a p', String b s' => if Ascii.eqb a b then lit p' s' else None
  end.

Fixpoint dotstar {A : Type} (s : string) (k : string -> option A) : option (string * A) :=
  match s with
  | EmptyString => pair EmptyString <$> k EmptyString
  | String c s' =>
      if Ascii.eqb c nl then pair EmptyString <$> k s
      else match dotstar s' k with
           | Some (g, a) => Some (String c g, a)
           | None => pair EmptyString <$> k s
           end
  end.

(** [regex.match(line)], returning [(group(1), group(2))]. *)
Definition summary_match (line : string) : option (string * string) :=
  s1 ← lit ("  " +:+ dq) line;
  '(g1, g2) ← dotstar s1 (fun s2 =>
      s3 ← lit (dq +:+ ": " +:+ dq) s2;
      fst <$> dotstar s3 (fun s4 => lit dq s4));
  Some (g1, g2).

End Text.

Import Text.


(** ** Data model *)

(** A remediation hint is the three-element list [[pattern, reference, label]]. *)
Definition error_hint : Type := string * string * string.

(** What the [*_hints()] helpers return: [(retry_hints, error_hints, install_hint)]. *)
Definition hints : Type := list string * list error_hint * string.

Definition kubectl_hints : hints :=
  ([ "A connection attempt failed because the connected party did not properly respond after a period of time, or established connection failed because connected host has failed to respond" ],
   [ ("no such host", "../monitor-k8s/tsg010-get-kubernetes-contexts.ipynb", "TSG010 - Get configuration contexts");
     ("no such host", "../repair/tsg011-restart-sparkhistory-server.ipynb", "TSG011 - Restart sparkhistory server");
     ("No connection could be made because the target machine actively refused it", "../repair/tsg056-kubectl-no-connection-could-be-made.ipynb", "TSG056 - Kubectl fails with No connection could be made because the target machine actively refused it") ],
   "[SOP036 - Install kubectl command line interface](../install/sop036-install-kubectl.ipynb)'").

Definition azdata_hints : hints :=
  ([ "Endpoint sql-server-master does not exist";
     "Endpoint livy does not exist";
     "Failed to get state for cluster";
     "Endpoint webhdfs does not exist";
     "Adaptive Server is unavailable or does not exist";
     "Error: Address already in use";
     "Timed out getting health status after 5000 milliseconds" ],
   [ ("azdata login", "../common/sop028-azdata-login.ipynb", "SOP028 - azdata login");
     ("The token is expired", "../common/sop028-azdata-login.ipynb", "SOP028 - azdata login");
     ("Reason: Unauthorized", "../common/sop028-azdata-login.ipynb", "SOP028 - azdata login");
     ("Max retries exceeded with url: /api/v1/bdc/endpoints", "../common/sop028-azdata-login.ipynb", "SOP028 - azdata login");
     ("Look at the controller logs for more details", "../diagnose/tsg027-observe-bdc-create.ipynb", "TSG027 - Observe cluster deployment");
     ("provided port is already allocated", "../log-files/tsg062-tail-bdc-previous-container-logs.ipynb", "TSG062 - Get tail of all previous container logs for pods in BDC namespace");
     ("Create cluster failed since the existing namespace", "../install/sop061-delete-bdc.ipynb", "SOP061 - Delete a big data cluster");
     ("Failed to complete kube config setup", "../repair/tsg067-failed-to-complete-kube-config-setup.ipynb", "TSG067 - Failed to complete kube config setup");
     ("Error processing command: " +:+ dq +:+ "ApiError", "../repair/tsg110-azdata-returns-apierror.ipynb", "TSG110 - Azdata returns ApiError");
     ("Error processing command: " +:+ dq +:+ "ControllerError", "../log-analyzers/tsg036-get-controller-logs.ipynb", "TSG036 - Controller logs");
     ("ERROR: 500", "../log-analyzers/tsg046-get-knox-logs.ipynb", "TSG046 - Knox gateway logs");
     ("Data source name not found and no default driver specified", "../install/sop069-install-odbc-driver-for-sql-server.ipynb", "SOP069 - Install ODBC for SQL Server");
     ("Can't open lib 'ODBC Driver 17 for SQL Server", "../install/sop069-install-odbc-driver-for-sql-server.ipynb", "SOP069 - Install ODBC for SQL Server") ],
   "[SOP055 - Install azdata command line interface](../install/sop055-install-azdata.ipynb)'").

(** List objects live in a store and are named by their location.  The two
    default arguments of [run] are two such objects, created once when the
    function is defined and shared by every call that omits the argument. *)
Definition loc : Type := nat.
Definition default_error_hints : loc := 0%nat.
Definition default_retry_hints : loc := 0%nat.

(** The arguments of one call of [run]. *)
Record request : Type := Request {
  cmd : string;
  return_output : bool;
  no_output : bool;
  error_hints : loc;
  retry_hints : loc;
  retry_count : nat
}.

(** What a spawned process does: the text it writes on each stream and its
    exit code. *)
Record process : Type := Process {
  stdout : string;
  stderr : string;
  returncode : Z
}.

(** The surroundings [run] reads but does not change.  [shlex_split] is [None]
    when [shlex.split] raises [ValueError]; [python_hints] is [None] when the
    name is not bound (the notebook does not define it); [popen n argv] is
    what the [n]-th call of [Popen] does, [None] when it raises
    [FileNotFoundError]. *)
Record host : Type := Host {
  shlex_split : string -> option (list string);
  which : string -> option string;
  sys_executable : string;
  platform_system : string;
  python_hints : option hints;
  popen : nat -> list string -> option process
}.

(** The state that outlives a call: the list objects, [os.environ], and the
    number of calls of [Popen] made so far. *)
Record state : Type := State {
  error_lists : gmap loc (list error_hint);
  retry_lists : gmap loc (list string);
  environ : gmap string string;
  popen_calls : nat
}.

Inductive exn : Type :=
| ValueError
| IndexError
| NameError (name : string)
| FileNotFoundError (executable : string)
| SystemExit (cmd : string) (returncode : Z).

(** [Return None] is Python's [None]. *)
Inductive outcome : Type :=
| Return (output : option string)
| Raise (e : exn).

(** What a call shows.  [EvEnter] is not shown: it marks the entry of an
    invocation of [run] and records its [retry_count]. *)
Inductive event : Type :=
| EvEnter (retry_count : nat)
| EvDisplay (markdown : string)
| EvPrint (text : string)
| EvStart (cmd which_binary : string)
| EvPopen (argv : list string) (piped : bool)
| EvRetry (retry_count : nat) (retry_hint : string)
| EvSuccess.

(** ** The runner *)

Definition max_retries : nat := 5.

(** [display(Markdown(...))] of the install hint, when there is one. *)
Definition suggest_install (install_hint : option string) : list event :=
  match install_hint with
  | Some i => [EvDisplay ("SUGGEST: Use " +:+ i +:+ " to resolve this issue.")]
  | None => []
  end.

(** [display(Markdown(...))] of a remediation hint. *)
Definition suggest (error_hint : error_hint) : event :=
  EvDisplay ("SUGGEST: Use [" +:+ error_hint.2 +:+ "](" +:+ error_hint.1.2 +:+ ") to resolve this issue.").

(** [retry_hints += ...; error_hints += ...]: both lists are extended in
    place, so every holder of the two objects sees the longer lists. *)
Definition add_hints (r : request) (hs : hints) (s : state) : state :=
  {| error_lists := <[error_hints r := (error_lists s !!! error_hints r) ++ hs.1.2]> (error_lists s);
     retry_lists := <[retry_hints r := (retry_lists s !!! retry_hints r) ++ hs.1.1]> (retry_lists s);
     environ := environ s;
     popen_calls := popen_calls s |}.

(** The locale fix-up made for python commands. *)
Definition set_locale (h : host) (s : state) : state :=
  if String.eqb (platform_system h) "Darwin" && bool_decide (environ s !! "LC_ALL" = None)
  then {| error_lists := error_lists s;
          retry_lists := retry_lists s;
          environ := <["LC_ALL" := "en_US.UTF-8"]> (environ s);
          popen_calls := popen_calls s |}
  else s.

(** From the tokenisation to the last of the three prefix tests: the state
    after them and either the exception raised or [(cmd_actual, install_hint)]. *)
Definition prologue (h : host) (r : request) (s : state)
  : state * (exn + list string * option string) :=
  match shlex_split h (cmd r) with
  | None => (s, inl ValueError)
  | Some cmd_actual =>
      let python :=
        if startswith (cmd r) "python " then
          match cmd_actual with
          | [] => (s, inl IndexError)
          | c0 :: args =>
              let s := set_locale h s in
              match python_hints h with
              | None => (s, inl (NameError "python_hints"))
              | Some hs =>
                  (add_hints r hs s, inr (replace c0 "python" (sys_executable h) :: args, Some hs.2))
              end
          end
        else (s, inr (cmd_actual, None)) in
      match python with
      | (s, inl e) => (s, inl e)
      | (s, inr (cmd_actual, install_hint)) =>
          let '(s, install_hint) :=
            if startswith (cmd r) "kubectl "
            then (add_hints r kubectl_hints s, Some kubectl_hints.2)
            else (s, install_hint) in
          let '(s, install_hint) :=
            if startswith (cmd r) "azdata "
            then (add_hints r azdata_hints s, Some azdata_hints.2)
            else (s, install_hint) in
          (s, inr (cmd_actual, install_hint))
      end
  end.

(** The display of one line of a notebook-run summary. *)
Definition hyperlink (line : string) : list event :=
  match summary_match line with
  | Some (g1, g2) =>
      if negb (find g1 "HTML" =? -1)
      then [EvDisplay (" - " +:+ dq +:+ g1 +:+ dq +:+ ": " +:+ dq +:+ g2 +:+ dq)]
      else [EvDisplay (" - " +:+ dq +:+ g1 +:+ dq +:+ ": " +:+ dq +:+ "[" +:+ g2 +:+ "](" +:+ g2 +:+ ")" +:+ dq)]
  | None => []
  end.

(** The loop over the lines of standard output: what is shown, and [output]. *)
Fixpoint pump_stdout (r : request) (lines : list string) (output : string)
  : list event * string :=
  match lines with
  | [] => ([], output)
  | line :: rest =>
      if return_output r then pump_stdout r rest (output +:+ line)
      else
        let shown :=
          if startswith (cmd r) "azdata notebook run" then hyperlink line
          else [EvPrint line] in
        let '(evs, output) := pump_stdout r rest output in
        (shown ++ evs, output)
  end.

(** [for error_hint in error_hints]: a suggestion for every entry found in the line. *)
Fixpoint show_error_hints (line_decoded : string) (table : list error_hint) : list event :=
  match table with
  | [] => []
  | error_hint :: rest =>
      if negb (find line_decoded error_hint.1.1 =? -1)
      then suggest error_hint :: show_error_hints line_decoded rest
      else show_error_hints line_decoded rest
  end.

(** [for retry_hint in retry_hints]: the entry on which the loop leaves [run]
    through the retry, if any. *)
Fixpoint scan_retry_hints (retry_count : nat) (line_decoded : string) (table : list string)
  : option string :=
  match table with
  | [] => None
  | retry_hint :: rest =>
      if negb (find line_decoded retry_hint =? -1) && (retry_count <? max_retries)%nat
      then Some retry_hint
      else scan_retry_hints retry_count line_decoded rest
  end.

(** The loop over the lines of standard error: what is shown, and the retry
    hint on which the loop was left, if it was. *)
Fixpoint pump_stderr (retry_count : nat) (error_table : list error_hint)
    (retry_table : list string) (lines : list string) : list event * option string :=
  match lines with
  | [] => ([], None)
  | line_decoded :: rest =>
      if String.eqb line_decoded EmptyString
      then pump_stderr retry_count error_table retry_table rest
      else
        let shown := EvPrint ("ERR: " +:+ line_decoded) :: show_error_hints line_decoded error_table in
        match scan_retry_hints retry_count line_decoded retry_table with
        | Some retry_hint => (shown ++ [EvRetry retry_count retry_hint], Some retry_hint)
        | None =>
            let '(evs, retry) := pump_stderr retry_count error_table retry_table rest in
            (shown ++ evs, retry)
        end
  end.

(** The end of [run], from the test of the exit code. *)
Definition finish (r : request) (p : process) (output : string) : list event * outcome :=
  if negb (returncode p =? 0) then ([], Raise (SystemExit (cmd r) (returncode p)))
  else ([EvSuccess], Return (if return_output r then Some output else None)).

Definition spawned (s : state) : state :=
  {| error_lists := error_lists s;
     retry_lists := retry_lists s;
     environ := environ s;
     popen_calls := S (popen_calls s) |}.

(** The arguments of the recursive call: [no_output] is left to its default. *)
Definition retry_request (r : request) : request :=
  {| cmd := cmd r;
     return_output := return_output r;
     no_output := false;
     error_hints := error_hints r;
     retry_hints := retry_hints r;
     retry_count := S (retry_count r) |}.

(** [run], with [fuel] bounding the depth of the recursion: the final state,
    what was shown, and the value returned or the exception raised. *)
Fixpoint run_n (fuel : nat) (h : host) (r : request) (s : state)
  : option (state * list event * outcome) :=
  match fuel with
  | O => None
  | S fuel =>
      let enter := EvEnter (retry_count r) in
      match prologue h r s with
      | (s, inl e) => Some (s, [enter], Raise e)
      | (s, inr ([], _)) => Some (s, [enter], Raise IndexError)
      | (s, inr (c0 :: args, install_hint)) =>
          match which h c0 with
          | None =>
              Some (s, enter :: suggest_install install_hint, Raise (FileNotFoundError c0))
          | Some which_binary =>
              let cmd_actual := which_binary :: args in
              let start := [enter; EvStart (cmd r) which_binary] in
              match popen h (popen_calls s) cmd_actual with
              | None =>
                  Some (spawned s, start ++ suggest_install install_hint,
                        Raise (FileNotFoundError which_binary))
              | Some p =>
                  let s := spawned s in
                  let start := start ++ [EvPopen cmd_actual (negb (no_output r))] in
                  if no_output r then
                    let '(evs, res) := finish r p EmptyString in
                    Some (s, start ++ evs, res)
                  else
                    let '(out_evs, output) := pump_stdout r (readlines (stdout p)) EmptyString in
                    let '(err_evs, retry) :=
                      pump_stderr (retry_count r) (error_lists s !!! error_hints r)
                        (retry_lists s !!! retry_hints r) (readlines (stderr p)) in
                    match retry with
                    | Some _ =>
                        match run_n fuel h (retry_request r) s with
                        | None => None
                        | Some (s, evs, Return output) =>
                            Some (s, start ++ out_evs ++ err_evs ++ evs,
                                  Return (if return_output r then output else None))
                        | Some (s, evs, Raise e) =>
                            Some (s, start ++ out_evs ++ err_evs ++ evs, Raise e)
                        end
                    | None =>
                        let '(evs, res) := finish r p output in
                        Some (s, start ++ out_evs ++ err_evs ++ evs, res)
                    end
              end
          end
      end
  end.

(** [run]: the recursion is at most [max_retries - retry_count] calls deep. *)
Definition run (h : host) (r : request) (s : state) : option (state * list event * outcome) :=
  run_n (S (max_retries - retry_count r)) h r s.

(** ** Concrete surroundings used in the examples *)

Module Demo.

(** Splitting at spaces: what [shlex.split] does on a command line without
    quotes, escapes or other blanks. *)
Fixpoint split_spaces (cur : string) (s : string) : list string :=
  match s with
  | EmptyString => if String.eqb cur EmptyString then [] else [cur]
  | String c s' =>
      if Ascii.eqb c " "%char
      then (if String.eqb cur EmptyString then split_spaces EmptyString s'
            else cur :: split_spaces EmptyString s')
      else split_spaces (cur +:+ String c EmptyString) s'
  end.

(** A search path holding [azdata] and [tool] under [/bin], and the host
    interpreter. *)
Definition on_path (name : string) : option string :=
  if String.eqb name "azdata" || String.eqb name "tool"
  then Some ("/bin/" +:+ name)
  else if String.eqb name "/ads/python3" then Some name
  else None.

Definition line (s : string) : string := s +:+ String nl EmptyString.

Definition mk_host (procs : nat -> list string -> option process) : host :=
  {| shlex_split := fun c => Some (split_spaces EmptyString c);
     which := on_path;
     sys_executable := "/ads/python3";
     platform_system := "Darwin";
     python_hints := None;
     popen := procs |}.

(** Both default list objects empty, as they are when [run] has just been defined. *)
Definition fresh : state :=
  {| error_lists := ∅; retry_lists := ∅; environ := ∅; popen_calls := 0 |}.

Definition call (c : string) (ret : bool) : request :=
  {| cmd := c; return_output := ret; no_output := false;
     error_hints := default_error_hints; retry_hints := default_retry_hints;
     retry_count := 0 |}.

(** The first process started reports a transient condition and exits with
    [code]; every later one prints [ok] and succeeds. *)
Definition flaky (code : Z) : host :=
  mk_host (fun n _ =>
    if (n =? 0)%nat
    then Some {| stdout := line "connecting";
                 stderr := line "ERROR: Endpoint livy does not exist";
                 returncode := code |}
    else Some {| stdout := line "ok"; stderr := EmptyString; returncode := 0 |}).

(** Every process reports the same transient condition and exits with 1. *)
Definition failing : host :=
  mk_host (fun _ _ =>
    Some {| stdout := EmptyString;
            stderr := line "ERROR: Endpoint livy does not exist" +:+ line "giving up";
            returncode := 1 |}).

(** Every process writes [text] on standard output, [err] on standard error,
    and succeeds. *)
Definition quiet (text err : string) : host :=
  mk_host (fun _ _ => Some {| stdout := text; stderr := err; returncode := 0 |}).

(** [tool] finds its port taken until two processes have been started;
    everything else succeeds at once. *)
Definition busy_port : host :=
  mk_host (fun n argv =>
    if bool_decide (head argv = Some "/bin/tool") && (n <? 2)%nat
    then Some {| stdout := EmptyString;
                 stderr := line "Error: Address already in use";
                 returncode := 1 |}
    else Some {| stdout := line "ok"; stderr := EmptyString; returncode := 0 |}).

(** A state with the two default list objects as they are when [run] has just
    been defined, and everything else as in [s]. *)
Definition with_fresh_defaults (s : state) : state :=
  {| error_lists := <[default_error_hints := []]> (error_lists s);
     retry_lists := <[default_retry_hints := []]> (retry_lists s);
     environ := environ s;
     popen_calls := popen_calls s |}.

(** The same surroundings with [python_hints] defined. *)
Definition with_python_hints (h : host) (hs : hints) : host :=
  {| shlex_split := shlex_split h;
     which := which h;
     sys_executable := sys_executable h;
     platform_system := platform_system h;
     python_hints := Some hs;
     popen := popen h |}.

End Demo.

(** Replacing the table and the object of the remediation hints, to compare
    two runs that differ in them only. *)
Definition with_error_hints (r : request) (l : loc) : request :=
  {| cmd := cmd r;
     return_output := return_output r;
     no_output := no_output r;
     error_hints := l;
     retry_hints := retry_hints r;
     retry_count := retry_count r |}.

Definition with_error_lists (s : state) (m : gmap loc (list error_hint)) : state :=
  {| error_lists := m;
     retry_lists := retry_lists s;
     environ := environ s;
     popen_calls := popen_calls s |}.

(** The value returned or the exception raised by a run. *)
Definition outcome_of (x : option (state * list event * outcome)) : option outcome :=
  snd <$> x.

(** [pat] occurs in [line]: the same characters, in the same case, side by side. *)
Definition Substring (pat line : string) : Prop :=
  ∃ a b, line = a +:+ pat +:+ b.

(** What of a run can be told without looking at what was shown or at the
    remediation lists: the retry lists, the environment, the number of
    processes started and the outcome. *)
Definition control_of (x : option (state * list event * outcome))
  : option (gmap loc (list string) * gmap string string * nat * outcome) :=
  (λ y, (retry_lists y.1.1, environ y.1.1, popen_calls y.1.1, y.2)) <$> x.

(** Whether a call makes the locale fix-up. *)
Definition fixes_locale (h : host) (r : request) (s : state) : bool :=
  startswith (cmd r) "python "
  && match shlex_split h (cmd r) with Some (_ :: _) => true | _ => false end
  && String.eqb (platform_system h) "Darwin"
  && bool_decide (environ s !! "LC_ALL" = None).

(** The number of occurrences of a character in a text. *)
Fixpoint count_char (c : ascii) (s : string) : nat :=
  match s with
  | EmptyString => O
  | String a s' => if Ascii.eqb a c then S (count_char c s') else count_char c s'
  end.

(** A line of a notebook-run summary: a quoted key and a quoted value,
    indented by two spaces, and whatever follows the value. *)
Definition summary_line (key value rest : string) : string :=
  "  " +:+ dq +:+ key +:+ dq +:+ ": " +:+ dq +:+ value +:+ dq +:+ rest.

(** What follows the first group of the summary pattern: the separator and
    the second group. *)
Definition after_key (s2 : string) : option string :=
  s3 ← lit (dq +:+ ": " +:+ dq) s2; fst <$> dotstar s3 (lit dq).

(** The install hint of the tool family a command line belongs to. *)
Definition family_install_hint (h : host) (c : string) : option string :=
  if startswith c "azdata " then Some azdata_hints.2
  else if startswith c "kubectl " then Some kubectl_hints.2
  else if startswith c "python " then snd <$> python_hints h
  else None.

(** The name [run] looks up on the search path, given the first token. *)
Definition looked_up (h : host) (c tok : string) : string :=
  if startswith c "python " then replace tok "python" (sys_executable h) else tok.

(** What the loop over standard error shows for one line that is not empty. *)
Definition echo (error_table : list error_hint) (line_decoded : string) : list event :=
  EvPrint ("ERR: " +:+ line_decoded) :: show_error_hints line_decoded error_table.

(** The same surroundings, except that the [n]-th process started exits with [code]. *)
Definition override_exit (h : host) (n : nat) (code : Z) : host :=
  {| shlex_split := shlex_split h;
     which := which h;
     sys_executable := sys_executable h;
     platform_system := platform_system h;
     python_hints := python_hints h;
     popen := fun k argv =>
       if (k =? n)%nat
       then (λ p, {| stdout := stdout p; stderr := stderr p; returncode := code |})
              <$> popen h k argv
       else popen h k argv |}.

(** The [retry_count] of the invocations of [run] recorded in a trace, in order. *)
Definition enter_of (e : event) : option nat :=
  match e with EvEnter n => Some n | _ => None end.

Definition enter_counts (evs : list event) : list nat := omap enter_of evs.

(** ** Further notions used to describe a run *)

(** The hints the prologue appends for a command line: those of its tool
    family, if it has one. *)
Definition family_hints (h : host) (c : string) : option hints :=
  if startswith c "python " then python_hints h
  else if startswith c "kubectl " then Some kubectl_hints
  else if startswith c "azdata " then Some azdata_hints
  else None.

(** [n] copies of a list, one after the other. *)
Definition copies {A : Type} (n : nat) (l : list A) : list A := concat (replicate n l).

(** Events that are plain output: a printed text or a displayed markup. *)
Definition plain (e : event) : Prop :=
  match e with EvPrint _ | EvDisplay _ => True | _ => False end.

(** The retry notices of a trace, by the count they print. *)
Definition retry_of (e : event) : option nat :=
  match e with EvRetry n _ => Some n | _ => None end.

Definition retry_notices (evs : list event) : list nat := omap retry_of evs.

(** The success notices of a trace. *)
Definition success_of (e : event) : option unit :=
  match e with EvSuccess => Some tt | _ => None end.

Definition successes (evs : list event) : nat := length (omap success_of evs).

(** The argument lists of the processes a trace shows being started, in order. *)
Definition popen_of (e : event) : option (list string) :=
  match e with EvPopen argv _ => Some argv | _ => None end.

Definition started (evs : list event) : list (list string) := omap popen_of evs.

(** [p] is the last process the call of [run] with arguments [r] in state [s]
    has started: the call has made a call of [Popen] of its own, the last
    call of [Popen] made was given the executable the command line resolves
    to, followed by the other tokens, it is the last start the trace [evs]
    shows, and it started [p]. *)
Definition last_started (h : host) (r : request) (s s' : state) (evs : list event)
    (p : process) : Prop :=
  ∃ c0 args ih wb,
    (prologue h r s).2 = inr (c0 :: args, ih) ∧
    which h c0 = Some wb ∧
    last (started evs) = Some (wb :: args) ∧
    (popen_calls s < popen_calls s')%nat ∧
    popen h (popen_calls s' - 1) (wb :: args) = Some p.

(** What [finish] returns or raises, spelled out. *)
Definition verdict (r : request) (p : process) (output : string) : outcome :=
  if returncode p =? 0 then Return (if return_output r then Some output else None)
  else Raise (SystemExit (cmd r) (returncode p)).

Definition success_notice (p : process) : list event :=
  if returncode p =? 0 then [EvSuccess] else [].

(** ** The runs of [run], case by case

    [runs h r s s' evs res]: the call of [run] with arguments [r] in state [s]
    ends in state [s'], has shown [evs], and returns or raises [res].  One
    rule for every way through the function. *)
Inductive runs (h : host) : request → state → state → list event → outcome → Prop :=
| runs_prologue_raises r s s1 e :
    prologue h r s = (s1, inl e) →
    runs h r s s1 [EvEnter (retry_count r)] (Raise e)
| runs_no_token r s s1 ih :
    prologue h r s = (s1, inr ([], ih)) →
    runs h r s s1 [EvEnter (retry_count r)] (Raise IndexError)
| runs_not_on_path r s s1 c0 args ih :
    prologue h r s = (s1, inr (c0 :: args, ih)) →
    which h c0 = None →
    runs h r s s1 (EvEnter (retry_count r) :: suggest_install ih)
      (Raise (FileNotFoundError c0))
| runs_popen_raises r s s1 c0 args ih wb :
    prologue h r s = (s1, inr (c0 :: args, ih)) →
    which h c0 = Some wb →
    popen h (popen_calls s1) (wb :: args) = None →
    runs h r s (spawned s1)
      ([EvEnter (retry_count r); EvStart (cmd r) wb] ++ suggest_install ih)
      (Raise (FileNotFoundError wb))
| runs_unpiped r s s1 c0 args ih wb p :
    prologue h r s = (s1, inr (c0 :: args, ih)) →
    which h c0 = Some wb →
    popen h (popen_calls s1) (wb :: args) = Some p →
    no_output r = true →
    runs h r s (spawned s1)
      ([EvEnter (retry_count r); EvStart (cmd r) wb; EvPopen (wb :: args) false]
         ++ success_notice p)
      (verdict r p EmptyString)
| runs_to_the_end r s s1 c0 args ih wb p err_evs :
    prologue h r s = (s1, inr (c0 :: args, ih)) →
    which h c0 = Some wb →
    popen h (popen_calls s1) (wb :: args) = Some p →
    no_output r = false →
    pump_stderr (retry_count r) (error_lists s1 !!! error_hints r)
      (retry_lists s1 !!! retry_hints r) (readlines (stderr p)) = (err_evs, None) →
    runs h r s (spawned s1)
      ([EvEnter (retry_count r); EvStart (cmd r) wb; EvPopen (wb :: args) true]
         ++ (pump_stdout r (readlines (stdout p)) EmptyString).1
         ++ err_evs ++ success_notice p)
      (verdict r p (pump_stdout r (readlines (stdout p)) EmptyString).2)
| runs_retry r s s1 c0 args ih wb p err_evs hint s' evs res :
    prologue h r s = (s1, inr (c0 :: args, ih)) →
    which h c0 = Some wb →
    popen h (popen_calls s1) (wb :: args) = Some p →
    no_output r = false →
    pump_stderr (retry_count r) (error_lists s1 !!! error_hints r)
      (retry_lists s1 !!! retry_hints r) (readlines (stderr p)) = (err_evs, Some hint) →
    runs h (retry_request r) (spawned s1) s' evs res →
    runs h r s s'
      ([EvEnter (retry_count r); EvStart (cmd r) wb; EvPopen (wb :: args) true]
         ++ (pump_stdout r (readlines (stdout p)) EmptyString).1
         ++ err_evs ++ evs)
      res.

(** ** The cell that reads the controller secrets and the master endpoint

    The three calls of [run] made by the notebook, and the decoding of what
    they return.  The two library decoders are taken as given: each is [None]
    where the library raises.  Loading the SQL extension before the calls and
    opening the connection after them are left out. *)
Record decoders : Type := Decoders {
  b64decode_utf8 : string -> option string;
  endpoint_of : string -> option string
}.

Inductive cell_outcome : Type :=
| Connect (controller_username controller_password sql_master_tcp_and_port : string)
| Stopped (e : exn)
| DecodeFailed.

(** The f-string that asks kubectl for one field of the controller secret. *)
Definition secret_command (namespace field : string) : string :=
  "kubectl get secret/controller-login-secret -n " +:+ namespace
    +:+ " -o jsonpath={.data." +:+ field +:+ "}".

Definition endpoint_command : string :=
  "azdata bdc endpoint list --endpoint=" +:+ dq +:+ "sql-server-master" +:+ dq.

(** [run(c, return_output=True)]: every other argument at its default. *)
Definition capture (c : string) : request :=
  {| cmd := c; return_output := true; no_output := false;
     error_hints := default_error_hints; retry_hints := default_retry_hints;
     retry_count := 0 |}.

(** One call of [run] followed by a decoder, inside the cell: the cell goes on
    with the decoded text, or stops on the exception or on the decoder. *)
Definition fetch (h : host) (c : string) (decode : string -> option string) (s : state)
  : option (state * list event * (cell_outcome + string)) :=
  match run h (capture c) s with
  | None => None
  | Some (s, evs, Raise e) => Some (s, evs, inl (Stopped e))
  | Some (s, evs, Return output) =>
      match output ≫= decode with
      | None => Some (s, evs, inl DecodeFailed)
      | Some text => Some (s, evs, inr text)
      end
  end.

Definition connect_cell (d : decoders) (h : host) (namespace : string) (s : state)
  : option (state * list event * cell_outcome) :=
  match fetch h (secret_command namespace "username") (b64decode_utf8 d) s with
  | None => None
  | Some (s, evs1, inl stop) => Some (s, evs1, stop)
  | Some (s, evs1, inr controller_username) =>
      match fetch h (secret_command namespace "password") (b64decode_utf8 d) s with
      | None => None
      | Some (s, evs2, inl stop) => Some (s, evs1 ++ evs2, stop)
      | Some (s, evs2, inr controller_password) =>
          match fetch h endpoint_command (endpoint_of d) s with
          | None => None
          | Some (s, evs3, inl stop) => Some (s, evs1 ++ evs2 ++ evs3, stop)
          | Some (s, evs3, inr sql_master_tcp_and_port) =>
              Some (s, evs1 ++ evs2 ++ evs3,
                    Connect controller_username controller_password sql_master_tcp_and_port)
          end
      end
  end.

(** Surroundings for the examples of the cell. *)
Module Scenes.

(** A search path that also holds [kubectl]. *)
Definition on_path (name : string) : option string :=
  if String.eqb name "kubectl" then Some "/bin/kubectl" else Demo.on_path name.

(** [kubectl] prints a secret and [azdata] an endpoint description; both succeed. *)
Definition cluster : host :=
  {| shlex_split := fun c => Some (Demo.split_spaces EmptyString c);
     which := on_path;
     sys_executable := "/ads/python3";
     platform_system := "Linux";
     python_hints := None;
     popen := fun _ argv =>
       if bool_decide (head argv = Some "/bin/kubectl")
       then Some {| stdout := "YWRtaW4="; stderr := EmptyString; returncode := 0 |}
       else Some {| stdout := "{endpoint}"; stderr := EmptyString; returncode := 0 |} |}.

(** Decoders that know the two texts [cluster] prints. *)
Definition known : decoders :=
  {| b64decode_utf8 := fun x => if String.eqb x "YWRtaW4=" then Some "admin" else None;
     endpoint_of := fun x => if String.eqb x "{endpoint}" then Some "10.0.0.4,31433" else None |}.

(** No process can be started: [Popen] does not find the file. *)
Definition broken : host := Demo.mk_host (fun _ _ => None).

End Scenes.

(** ** The primitives at work *)

Example find_first_occurrence : find "abcabc" "ca" = 2.
Proof. reflexivity. Qed.

Example find_absent : find "abcabc" "cb" = -1.
Proof. reflexivity. Qed.

Example find_is_case_sensitive : find "No Such Host" "no such host" = -1.
Proof. reflexivity. Qed.

Example replace_every_occurrence : replace "python3python" "python" "/p" = "/p3/p".
Proof. reflexivity. Qed.

Example readlines_keeps_terminators :
  readlines (String "a" (String nl (String nl (String "b" EmptyString))))
  = [String "a" (String nl EmptyString); String nl EmptyString; "b"].
Proof. reflexivity. Qed.

Example summary_match_is_greedy :
  summary_match ("  " +:+ dq +:+ "a" +:+ dq +:+ ": " +:+ dq +:+ "b" +:+ dq +:+ ": " +:+ dq +:+ "c" +:+ dq)
  = Some ("a" +:+ dq +:+ ": " +:+ dq +:+ "b", "c").
Proof. reflexivity. Qed.

Example captured_output_is_returned :
  outcome_of (run (Demo.quiet (Demo.line "ok") EmptyString) (Demo.call "tool status" true) Demo.fresh)
  = Some (Return (Some (Demo.line "ok"))).
Proof. reflexivity. Qed.

(** ** Facts about the text primitives *)

Section TextFacts.

Lemma append_nil_l (s : string) : EmptyString +:+ s = s.
Proof. reflexivity. Qed.

Lemma append_cons (c : ascii) (a b : string) : String c a +:+ b = String c (a +:+ b).
Proof. reflexivity. Qed.

Lemma append_nil_r (s : string) : s +:+ EmptyString = s.
Proof. induction s as [|c s IH]; [done | by rewrite append_cons, IH]. Qed.

Lemma append_assoc (a b c : string) : (a +:+ b) +:+ c = a +:+ (b +:+ c).
Proof. induction a as [|x a IH]; [done | by rewrite !append_cons, IH]. Qed.

Lemma startswith_prefix (s p : string) :
  startswith s p = true ↔ ∃ t, s = p +:+ t.
Proof.
  revert s. induction p as [|a p IH]; intros s; simpl.
  - split; [intros _; by exists s | by destruct s].
  - destruct s as [|b s]; simpl.
    + split; [done | intros [t Ht]; discriminate].
    + destruct (Ascii.eqb a b) eqn:E.
      * apply Ascii.eqb_eq in E as ->. rewrite IH. split.
        -- intros [t ->]. by exists t.
        -- intros [t Ht]. rewrite append_cons in Ht. injection Ht as ->. by exists t.
      * split; [done |]. intros [t Ht]. rewrite append_cons in Ht. injection Ht as -> _.
        by rewrite Ascii.eqb_refl in E.
Qed.

Lemma find_lower (s sub : string) : -1 ≤ find s sub.
Proof.
  induction s as [|c s IH]; cbn [find].
  - destruct (startswith _ _); lia.
  - destruct (startswith _ _); [lia |].
    destruct (Z.eqb_spec (find s sub) (-1)); lia.
Qed.

Lemma find_substring (s sub : string) : find s sub ≠ -1 ↔ Substring sub s.
Proof.
  unfold Substring. induction s as [|c s IH].
  - cbn [find]. destruct (startswith EmptyString sub) eqn:E.
    + apply startswith_prefix in E as [t Ht]. split; [intros _ | done].
      exists EmptyString, t. done.
    + split; [done |]. intros (a & b & Hab).
      destruct a; [| discriminate]. rewrite append_nil_l in Hab.
      assert (startswith EmptyString sub = true) as E'
        by (apply startswith_prefix; by exists b).
      congruence.
  - cbn [find]. destruct (startswith (String c s) sub) eqn:E.
    + apply startswith_prefix in E as [t Ht]. split; [intros _ | done].
      exists EmptyString, t. done.
    + pose proof (find_lower s sub) as Hl.
      destruct (Z.eqb_spec (find s sub) (-1)) as [Heq | Hne].
      * split; [done |]. intros (a & b & Hab). destruct a as [|x a].
        -- assert (startswith (String c s) sub = true) as E'
             by (apply startswith_prefix; by exists b).
           congruence.
        -- rewrite append_cons in Hab. injection Hab as -> ->.
           exfalso. apply IH; [by eauto | done].
      * split; [| lia]. intros _. apply IH in Hne as (a & b & ->).
        by exists (String c a), b.
Qed.

Lemma found_substring (s sub : string) :
  negb (find s sub =? -1) = true ↔ Substring sub s.
Proof.
  rewrite <- find_substring. destruct (Z.eqb_spec (find s sub) (-1)); simpl; split; congruence.
Qed.

#[global] Instance Substring_dec (pat line : string) : Decision (Substring pat line).
Proof.
  destruct (negb (find line pat =? -1)) eqn:E.
  - left. by apply found_substring.
  - right. intros H. apply found_substring in H. congruence.
Defined.

Lemma found_decide (s sub : string) :
  negb (find s sub =? -1) = bool_decide (Substring sub s).
Proof.
  destruct (negb _) eqn:E; symmetry.
  - apply bool_decide_eq_true, found_substring, E.
  - apply bool_decide_eq_false. intros H. apply found_substring in H. congruence.
Qed.

(** A line read from a pipe is never the empty text. *)
Lemma readlines_nonempty (s : string) : Forall (λ l, l ≠ EmptyString) (readlines s).
Proof.
  induction s as [|c s IH]; simpl; [constructor |].
  destruct (Ascii.eqb c nl).
  - by constructor.
  - destruct (readlines s); [by repeat constructor |].
    inversion IH; subst. by constructor.
Qed.

(** Joining the lines gives the stream back. *)
Lemma readlines_join (s : string) : foldr String.append EmptyString (readlines s) = s.
Proof.
  induction s as [|c s IH]; simpl; [done |].
  destruct (Ascii.eqb c nl).
  - simpl. by rewrite append_cons, append_nil_l, IH.
  - destruct (readlines s) as [|l ls]; simpl in *; [by subst |].
    by rewrite append_cons, IH.
Qed.

End TextFacts.

(** ** Facts about the loops of [run] *)

Section Loops.

Lemma show_error_hints_filter (line : string) (table : list error_hint) :
  show_error_hints line table = suggest <$> filter (λ e, Substring e.1.1 line) table.
Proof.
  induction table as [|e table IH]; [done |].
  cbn [show_error_hints]. rewrite found_decide, filter_cons.
  destruct (decide (Substring e.1.1 line)) as [H | H].
  - rewrite bool_decide_eq_true_2 by done. by rewrite fmap_cons, IH.
  - by rewrite bool_decide_eq_false_2.
Qed.

Lemma scan_retry_hints_head (rc : nat) (line : string) (table : list string) :
  scan_retry_hints rc line table =
  if (rc <? max_retries)%nat then head (filter (λ p, Substring p line) table) else None.
Proof.
  induction table as [|p table IH]; cbn [scan_retry_hints].
  - by destruct (rc <? max_retries)%nat.
  - rewrite found_decide, filter_cons, IH.
    destruct (decide (Substring p line)) as [H | H].
    + rewrite bool_decide_eq_true_2 by done. by destruct (rc <? max_retries)%nat.
    + by rewrite bool_decide_eq_false_2.
Qed.

Lemma scan_retry_hints_exhausted (rc : nat) (line : string) (table : list string) :
  (max_retries ≤ rc)%nat → scan_retry_hints rc line table = None.
Proof.
  intros H. rewrite scan_retry_hints_head.
  destruct (Nat.ltb_spec rc max_retries); [lia | done].
Qed.

Lemma scan_retry_hints_Some (rc : nat) (line : string) (table : list string) (hint : string) :
  scan_retry_hints rc line table = Some hint → (rc < max_retries)%nat.
Proof.
  rewrite scan_retry_hints_head. destruct (Nat.ltb_spec rc max_retries); [done | discriminate].
Qed.

(** The first entry of the table found in the line is the one acted upon. *)
Lemma scan_retry_hints_first (rc : nat) (line : string) (t1 t2 : list string) (hint : string) :
  (rc < max_retries)%nat →
  Forall (λ p, ¬ Substring p line) t1 →
  Substring hint line →
  scan_retry_hints rc line (t1 ++ hint :: t2) = Some hint.
Proof.
  intros Hrc Ht1 Hh. induction Ht1 as [|p t1 Hp _ IH]; cbn [app scan_retry_hints].
  - rewrite found_decide, bool_decide_eq_true_2 by done.
    by destruct (Nat.ltb_spec rc max_retries); [| lia].
  - rewrite found_decide, bool_decide_eq_false_2 by done. apply IH.
Qed.

Lemma scan_retry_hints_none (rc : nat) (line : string) (table : list string) :
  Forall (λ p, ¬ Substring p line) table → scan_retry_hints rc line table = None.
Proof.
  induction 1 as [|p t Hp _ IH]; cbn [scan_retry_hints]; [done |].
  by rewrite found_decide, bool_decide_eq_false_2.
Qed.

Lemma pump_stderr_Some rc et rt lines evs hint :
  pump_stderr rc et rt lines = (evs, Some hint) → (rc < max_retries)%nat.
Proof.
  revert evs. induction lines as [|l lines IH]; intros evs; cbn [pump_stderr]; [done |].
  destruct (String.eqb l EmptyString); [apply IH |].
  destruct (scan_retry_hints rc l rt) eqn:E.
  - intros _. eapply scan_retry_hints_Some, E.
  - destruct (pump_stderr rc et rt lines) as [evs' o]. intros [= _ ->]. by eapply IH.
Qed.

(** With no attempt left, every line is echoed and classified. *)
Lemma pump_stderr_exhausted rc et rt lines :
  (max_retries ≤ rc)%nat →
  Forall (λ l, l ≠ EmptyString) lines →
  pump_stderr rc et rt lines = (flat_map (echo et) lines, None).
Proof.
  intros Hrc. induction 1 as [|l lines Hl _ IH]; cbn [pump_stderr flat_map]; [done |].
  apply String.eqb_neq in Hl as ->.
  rewrite scan_retry_hints_exhausted by done. by rewrite IH.
Qed.

(** The loop is left on the first line that holds a retry hint; the lines
    after it are not looked at. *)
Lemma pump_stderr_retry rc et rt l1 line l2 hint :
  Forall (λ l, l ≠ EmptyString ∧ scan_retry_hints rc l rt = None) l1 →
  line ≠ EmptyString →
  scan_retry_hints rc line rt = Some hint →
  pump_stderr rc et rt (l1 ++ line :: l2) =
  (flat_map (echo et) l1 ++ echo et line ++ [EvRetry rc hint], Some hint).
Proof.
  intros Hl1 Hline Hscan.
  induction Hl1 as [|l l1 [Hl Hn] _ IH]; cbn [app pump_stderr flat_map].
  - apply String.eqb_neq in Hline as ->. by rewrite Hscan.
  - apply String.eqb_neq in Hl as ->. rewrite Hn, IH. by rewrite <- app_assoc.
Qed.

(** Whether and on which hint the loop is left does not depend on the
    remediation table. *)
Lemma pump_stderr_control rc et et' rt lines :
  (pump_stderr rc et rt lines).2 = (pump_stderr rc et' rt lines).2.
Proof.
  induction lines as [|l lines IH]; cbn [pump_stderr]; [done |].
  destruct (String.eqb l EmptyString); [done |].
  destruct (scan_retry_hints rc l rt); [done |].
  destruct (pump_stderr rc et rt lines), (pump_stderr rc et' rt lines). done.
Qed.

Lemma pump_stdout_capture r lines acc :
  return_output r = true →
  pump_stdout r lines acc = ([], acc +:+ foldr String.append EmptyString lines).
Proof.
  intros Hr. revert acc. induction lines as [|l lines IH]; intros acc; cbn [pump_stdout foldr].
  - by rewrite append_nil_r.
  - by rewrite Hr, IH, append_assoc.
Qed.

Lemma pump_stdout_stream r lines acc :
  return_output r = false →
  pump_stdout r lines acc =
  (flat_map (λ line, if startswith (cmd r) "azdata notebook run" then hyperlink line
                     else [EvPrint line]) lines, acc).
Proof.
  intros Hr. induction lines as [|l lines IH]; cbn [pump_stdout flat_map]; [done |].
  by rewrite Hr, IH.
Qed.

End Loops.

(** ** Facts about [run] *)

Section Run.

Context (h : host).

Lemma set_locale_popen_calls s : popen_calls (set_locale h s) = popen_calls s.
Proof. unfold set_locale. by destruct (_ && _). Qed.

Lemma prologue_popen_calls r s s1 res :
  prologue h r s = (s1, res) → popen_calls s1 = popen_calls s.
Proof.
  unfold prologue. intros H.
  destruct (shlex_split h (cmd r)) as [[|c0 args]|];
    destruct (startswith (cmd r) "python ");
    destruct (python_hints h);
    destruct (startswith (cmd r) "kubectl ");
    destruct (startswith (cmd r) "azdata ");
    simplify_eq/=; rewrite ?set_locale_popen_calls; done.
Qed.

(** One level of [run] when the loop over standard error is left on a retry hint. *)
Lemma run_n_retry_step fuel r s s1 c0 args ih wb p err_evs hint :
  prologue h r s = (s1, inr (c0 :: args, ih)) →
  which h c0 = Some wb →
  popen h (popen_calls s1) (wb :: args) = Some p →
  no_output r = false →
  pump_stderr (retry_count r) (error_lists s1 !!! error_hints r)
    (retry_lists s1 !!! retry_hints r) (readlines (stderr p)) = (err_evs, Some hint) →
  run_n (S fuel) h r s =
  match run_n fuel h (retry_request r) (spawned s1) with
  | None => None
  | Some (s', evs, res) =>
      Some (s', [EvEnter (retry_count r); EvStart (cmd r) wb; EvPopen (wb :: args) true]
                ++ (pump_stdout r (readlines (stdout p)) EmptyString).1 ++ err_evs ++ evs,
            match res with
            | Return output => Return (if return_output r then output else None)
            | Raise e => Raise e
            end)
  end.
Proof.
  intros Hpro Hw Hpo Hno Herr. cbn [run_n]. rewrite Hpro, Hw, Hpo, Hno.
  destruct (pump_stdout r (readlines (stdout p)) EmptyString) as [out_evs output].
  cbn [spawned error_lists retry_lists] in *. rewrite Herr.
  destruct (run_n fuel h (retry_request r) (spawned s1)) as [[[s' evs] [v | e]]|]; done.
Qed.

(** One level of [run] when the loop over standard error runs to its end. *)
Lemma run_n_finish_step fuel r s s1 c0 args ih wb p err_evs :
  prologue h r s = (s1, inr (c0 :: args, ih)) →
  which h c0 = Some wb →
  popen h (popen_calls s1) (wb :: args) = Some p →
  no_output r = false →
  pump_stderr (retry_count r) (error_lists s1 !!! error_hints r)
    (retry_lists s1 !!! retry_hints r) (readlines (stderr p)) = (err_evs, None) →
  run_n (S fuel) h r s =
  let '(out_evs, output) := pump_stdout r (readlines (stdout p)) EmptyString in
  let '(evs, res) := finish r p output in
  Some (spawned s1,
        [EvEnter (retry_count r); EvStart (cmd r) wb; EvPopen (wb :: args) true]
          ++ out_evs ++ err_evs ++ evs, res).
Proof.
  intros Hpro Hw Hpo Hno Herr. cbn [run_n]. rewrite Hpro, Hw, Hpo, Hno.
  destruct (pump_stdout r (readlines (stdout p)) EmptyString) as [out_evs output].
  cbn [spawned error_lists retry_lists] in *. rewrite Herr. done.
Qed.

(** A run returns the buffer when asked for it and [None] otherwise. *)
Lemma run_n_return_shape fuel r s s' evs v :
  run_n fuel h r s = Some (s', evs, Return v) →
  if return_output r then is_Some v else v = None.
Proof.
  revert r s s' evs v. induction fuel as [|fuel IH]; intros r s s' evs v; [done |].
  cbn [run_n].
  destruct (prologue h r s) as [s1 [e | [[|c0 args] ih]]]; [done.. |].
  destruct (which h c0) as [wb|]; [| done].
  destruct (popen h (popen_calls s1) (wb :: args)) as [p|]; [| done].
  destruct (no_output r).
  - unfold finish. destruct (negb _); [done |]. intros [= <- <- <-].
    by destruct (return_output r).
  - destruct (pump_stdout _ _ _) as [out_evs output].
    destruct (pump_stderr _ _ _ _) as [err_evs [hint|]].
    + destruct (run_n fuel h (retry_request r) (spawned s1)) as [[[s2 evs2] [v2 | e]]|] eqn:E;
        [| done..].
      intros [= <- <- <-]. apply IH in E. cbn [retry_request return_output] in E.
      by destruct (return_output r).
    + unfold finish. destruct (negb _); [done |]. intros [= <- <- <-].
      by destruct (return_output r).
Qed.

(** The recursive call's outcome is handed to the caller as it is. *)
Lemma run_n_retry_outcome fuel r s' evs res :
  run_n fuel h (retry_request r) s' = Some evs →
  res = evs.2 →
  match res with
  | Return output => Return (if return_output r then output else None)
  | Raise e => Raise e
  end = res.
Proof.
  destruct evs as [[s2 evs2] o]. intros E ->. cbn [snd]. destruct o as [v | e]; [| done].
  apply run_n_return_shape in E. cbn [retry_request return_output] in E.
  destruct (return_output r); [done | by subst].
Qed.

(** Enough fuel: the depth of the recursion is bounded by the attempts left. *)
Lemma run_n_total fuel r s :
  (max_retries - retry_count r < fuel)%nat → is_Some (run_n fuel h r s).
Proof.
  revert r s. induction fuel as [|fuel IH]; intros r s Hf; [lia |].
  cbn [run_n].
  destruct (prologue h r s) as [s1 [e | [[|c0 args] ih]]]; [done.. |].
  destruct (which h c0) as [wb|]; [| done].
  destruct (popen h (popen_calls s1) (wb :: args)) as [p|]; [| done].
  destruct (no_output r).
  - by destruct (finish _ _ _).
  - destruct (pump_stdout _ _ _) as [out_evs output].
    destruct (pump_stderr _ _ _ _) as [err_evs [hint|]] eqn:Herr.
    + apply pump_stderr_Some in Herr.
      destruct (IH (retry_request r) (spawned s1)) as [[[s2 evs2] [v | e]] ->];
        [| done..]; cbn [retry_request retry_count]; lia.
    + by destruct (finish _ _ _).
Qed.

Lemma run_n_fuel f1 f2 r s :
  (max_retries - retry_count r < f1)%nat →
  (max_retries - retry_count r < f2)%nat →
  run_n f1 h r s = run_n f2 h r s.
Proof.
  revert f2 r s. induction f1 as [|f1 IH]; intros [|f2] r s H1 H2; [lia.. |].
  cbn [run_n].
  destruct (prologue h r s) as [s1 [e | [[|c0 args] ih]]]; [done.. |].
  destruct (which h c0) as [wb|]; [| done].
  destruct (popen h (popen_calls s1) (wb :: args)) as [p|]; [| done].
  destruct (no_output r); [done |].
  destruct (pump_stdout _ _ _) as [out_evs output].
  destruct (pump_stderr _ _ _ _) as [err_evs [hint|]] eqn:Herr; [| done].
  apply pump_stderr_Some in Herr.
  rewrite (IH f2 (retry_request r) (spawned s1)); [done | cbn [retry_request retry_count]; lia..].
Qed.

End Run.

(** ** The failure classifier *)

(** C4. The loop over the remediation table shows, in table order, a
    suggestion for every entry whose pattern occurs in the line as an exact,
    case-sensitive substring, so a line holding the pattern of several entries
    gets one suggestion for each; the loop over the retry table acts on the
    first entry that occurs in the line, and on no other. *)
Theorem classifier_matches_in_table_order (line : string) :
  (∀ table : list error_hint,
     show_error_hints line table = suggest <$> filter (λ e, Substring e.1.1 line) table) ∧
  (∀ (rc : nat) (table : list string),
     scan_retry_hints rc line table =
     if (rc <? max_retries)%nat then head (filter (λ p, Substring p line) table) else None) ∧
  show_error_hints "dial tcp: lookup bdc: no such host" kubectl_hints.1.2 =
    [ suggest ("no such host", "../monitor-k8s/tsg010-get-kubernetes-contexts.ipynb",
               "TSG010 - Get configuration contexts");
      suggest ("no such host", "../repair/tsg011-restart-sparkhistory-server.ipynb",
               "TSG011 - Restart sparkhistory server") ] ∧
  show_error_hints "dial tcp: lookup bdc: No Such Host" kubectl_hints.1.2 = [].
Proof.
  split; [| split; [| split]].
  - apply show_error_hints_filter.
  - intros rc table. apply scan_retry_hints_head.
  - reflexivity.
  - reflexivity.
Qed.

(** ** Retry *)

Section Retry.

Context (h : host).

(** The state in which the retry is made, and what the attempt has shown by then. *)
Lemma run_retry r s s1 c0 args ih wb p l1 line l2 t1 hint t2 :
  (retry_count r < max_retries)%nat →
  no_output r = false →
  prologue h r s = (s1, inr (c0 :: args, ih)) →
  which h c0 = Some wb →
  popen h (popen_calls s1) (wb :: args) = Some p →
  readlines (stderr p) = l1 ++ line :: l2 →
  Forall (λ l, Forall (λ pat, ¬ Substring pat l) (retry_lists s1 !!! retry_hints r)) l1 →
  retry_lists s1 !!! retry_hints r = t1 ++ hint :: t2 →
  Forall (λ pat, ¬ Substring pat line) t1 →
  Substring hint line →
  ∃ s' evs res,
    run h (retry_request r) (spawned s1) = Some (s', evs, res) ∧
    run h r s =
    Some (s',
          [EvEnter (retry_count r); EvStart (cmd r) wb; EvPopen (wb :: args) true]
            ++ (pump_stdout r (readlines (stdout p)) EmptyString).1
            ++ (flat_map (echo (error_lists s1 !!! error_hints r)) l1
                ++ echo (error_lists s1 !!! error_hints r) line
                ++ [EvRetry (retry_count r) hint])
            ++ evs,
          res).
Proof.
  intros Hrc Hno Hpro Hw Hpo Hlines Hl1 Htable Ht1 Hhint.
  pose proof (readlines_nonempty (stderr p)) as Hne. rewrite Hlines in Hne.
  apply Forall_app in Hne as [Hne1 Hne2]. apply Forall_cons in Hne2 as [Hline _].
  assert (pump_stderr (retry_count r) (error_lists s1 !!! error_hints r)
            (retry_lists s1 !!! retry_hints r) (readlines (stderr p))
          = (flat_map (echo (error_lists s1 !!! error_hints r)) l1
               ++ echo (error_lists s1 !!! error_hints r) line
               ++ [EvRetry (retry_count r) hint], Some hint)) as Herr.
  { rewrite Hlines. apply pump_stderr_retry; [| done |].
    - apply Forall_forall. intros l Hl. split.
      + by eapply Forall_forall in Hne1.
      + apply scan_retry_hints_none. by eapply Forall_forall in Hl1.
    - rewrite Htable. by apply scan_retry_hints_first. }
  destruct (run_n_total h (S (max_retries - retry_count (retry_request r)))
              (retry_request r) (spawned s1)) as [[[s' evs] res] Hrec]; [lia |].
  change (run h (retry_request r) (spawned s1) = Some (s', evs, res)) in Hrec.
  exists s', evs, res. split; [done |].
  unfold run. replace (max_retries - retry_count r)%nat
    with (S (max_retries - S (retry_count r)))%nat by lia.
  erewrite run_n_retry_step by done.
  change (run_n (S (max_retries - S (retry_count r))) h (retry_request r) (spawned s1))
    with (run h (retry_request r) (spawned s1)).
  rewrite Hrec. do 2 f_equal.
  eapply (run_n_retry_outcome h); [exact Hrec | done].
Qed.

(** A run does not depend on the processes started before it. *)
Lemma run_n_override fuel n code r s :
  (n < popen_calls s)%nat →
  run_n fuel (override_exit h n code) r s = run_n fuel h r s.
Proof.
  revert r s. induction fuel as [|fuel IH]; intros r s Hn; [done |].
  cbn [run_n]. change (prologue (override_exit h n code) r s) with (prologue h r s).
  destruct (prologue h r s) as [s1 [e | [[|c0 args] ih]]] eqn:Hpro; [done.. |].
  apply prologue_popen_calls in Hpro.
  change (which (override_exit h n code) c0) with (which h c0).
  destruct (which h c0) as [wb|]; [| done].
  cbn [override_exit popen].
  destruct (Nat.eqb_spec (popen_calls s1) n); [lia |].
  destruct (popen h (popen_calls s1) (wb :: args)) as [p|]; [| done].
  rewrite IH by (cbn [spawned popen_calls]; lia). done.
Qed.

End Retry.

(** C1. With attempts left, on the first line of standard error that holds a
    retry hint (first line, first entry of the table), [run] calls itself on
    the same command line with [retry_count + 1] and otherwise the same
    arguments; nothing is shown for the lines after it, and the value returned
    or exception raised by the recursive call is the caller's. *)
Theorem retry_reinvokes_and_returns (h : host) (r : request) (s s1 : state)
    (c0 : string) (args : list string) (ih : option string) (wb : string) (p : process)
    (l1 l2 : list string) (line : string) (t1 t2 : list string) (hint : string) :
  (retry_count r < max_retries)%nat →
  no_output r = false →
  prologue h r s = (s1, inr (c0 :: args, ih)) →
  which h c0 = Some wb →
  popen h (popen_calls s1) (wb :: args) = Some p →
  readlines (stderr p) = l1 ++ line :: l2 →
  Forall (λ l, Forall (λ pat, ¬ Substring pat l) (retry_lists s1 !!! retry_hints r)) l1 →
  retry_lists s1 !!! retry_hints r = t1 ++ hint :: t2 →
  Forall (λ pat, ¬ Substring pat line) t1 →
  Substring hint line →
  ∃ s' evs res,
    run h {| cmd := cmd r; return_output := return_output r; no_output := no_output r;
             error_hints := error_hints r; retry_hints := retry_hints r;
             retry_count := retry_count r + 1 |} (spawned s1) = Some (s', evs, res) ∧
    run h r s =
    Some (s',
          [EvEnter (retry_count r); EvStart (cmd r) wb; EvPopen (wb :: args) true]
            ++ (pump_stdout r (readlines (stdout p)) EmptyString).1
            ++ (flat_map (echo (error_lists s1 !!! error_hints r)) l1
                ++ echo (error_lists s1 !!! error_hints r) line
                ++ [EvRetry (retry_count r) hint])
            ++ evs,
          res).
Proof.
  intros Hrc Hno Hpro Hw Hpo Hlines Hl1 Htable Ht1 Hhint.
  destruct (run_retry h r s s1 c0 args ih wb p l1 line l2 t1 hint t2)
    as (s' & evs & res & Hrec & Hrun); try done.
  exists s', evs, res. split; [| done].
  rewrite <- Hrec. unfold retry_request. by rewrite Hno, Nat.add_1_r.
Qed.

Lemma retry_reinvokes_and_returns_witness :
  let h := Demo.flaky 1 in
  let r := Demo.call "azdata bdc status" true in
  let s1 := add_hints r azdata_hints Demo.fresh in
  let line := Demo.line "ERROR: Endpoint livy does not exist" in
  ∃ s' evs res,
    run h {| cmd := cmd r; return_output := return_output r; no_output := no_output r;
             error_hints := error_hints r; retry_hints := retry_hints r;
             retry_count := retry_count r + 1 |} (spawned s1) = Some (s', evs, res) ∧
    run h r Demo.fresh =
    Some (s',
          [EvEnter 0; EvStart "azdata bdc status" "/bin/azdata";
           EvPopen ["/bin/azdata"; "bdc"; "status"] true]
            ++ (pump_stdout r [Demo.line "connecting"] EmptyString).1
            ++ (flat_map (echo (error_lists s1 !!! error_hints r)) []
                ++ echo (error_lists s1 !!! error_hints r) line
                ++ [EvRetry 0 "Endpoint livy does not exist"])
            ++ evs,
          res).
Proof.
  intros h r s1 line.
  apply (retry_reinvokes_and_returns h r Demo.fresh s1 "azdata" ["bdc"; "status"]
           (Some azdata_hints.2) "/bin/azdata"
           {| stdout := Demo.line "connecting"; stderr := line; returncode := 1 |}
           [] [] line ["Endpoint sql-server-master does not exist"]
           (drop 2 azdata_hints.1.1) "Endpoint livy does not exist").
  - vm_compute. lia.
  - reflexivity.
  - reflexivity.
  - reflexivity.
  - reflexivity.
  - reflexivity.
  - constructor.
  - reflexivity.
  - apply (bool_decide_unpack _). vm_compute. exact I.
  - apply (bool_decide_unpack _). vm_compute. exact I.
Defined.

(** C10. The exit code is not looked at before the loop over standard error
    has run to its end: with attempts left, a process that exits with 0 and
    writes a line holding a retry hint on standard error still makes [run]
    call itself on the same command line, and the run would be the same had
    the process exited with any other code. *)
Theorem retry_ignores_exit_code (h : host) (r : request) (s s1 : state)
    (c0 : string) (args : list string) (ih : option string) (wb : string) (p : process)
    (l1 l2 : list string) (line : string) (t1 t2 : list string) (hint : string) :
  (retry_count r < max_retries)%nat →
  no_output r = false →
  prologue h r s = (s1, inr (c0 :: args, ih)) →
  which h c0 = Some wb →
  popen h (popen_calls s1) (wb :: args) = Some p →
  returncode p = 0 →
  readlines (stderr p) = l1 ++ line :: l2 →
  Forall (λ l, Forall (λ pat, ¬ Substring pat l) (retry_lists s1 !!! retry_hints r)) l1 →
  retry_lists s1 !!! retry_hints r = t1 ++ hint :: t2 →
  Forall (λ pat, ¬ Substring pat line) t1 →
  Substring hint line →
  ∃ s' evs res,
    run h (retry_request r) (spawned s1) = Some (s', evs, res) ∧
    outcome_of (run h r s) = Some res ∧
    (∃ shown, (fst <$> run h r s) = Some (s', shown ++ EvRetry (retry_count r) hint :: evs)) ∧
    ∀ code, run (override_exit h (popen_calls s1) code) r s = run h r s.
Proof.
  intros Hrc Hno Hpro Hw Hpo _ Hlines Hl1 Htable Ht1 Hhint.
  destruct (run_retry h r s s1 c0 args ih wb p l1 line l2 t1 hint t2)
    as (s' & evs & res & Hrec & Hrun); try done.
  exists s', evs, res. split; [done |]. rewrite Hrun. split; [done |]. split.
  - eexists. cbn [fmap option_fmap option_map fst]. do 2 f_equal.
    rewrite !app_assoc. rewrite <- (app_assoc _ [_] evs). done.
  - intros code.
    destruct (run_retry (override_exit h (popen_calls s1) code) r s s1 c0 args ih wb
                {| stdout := stdout p; stderr := stderr p; returncode := code |}
                l1 line l2 t1 hint t2)
      as (s2 & evs2 & res2 & Hrec2 & Hrun2); try done.
    { cbn [override_exit popen]. by rewrite Nat.eqb_refl, Hpo. }
    unfold run in Hrec2. rewrite run_n_override in Hrec2 by (cbn [spawned popen_calls]; lia).
    fold (run h (retry_request r) (spawned s1)) in Hrec2.
    rewrite Hrec in Hrec2. injection Hrec2 as <- <- <-.
    rewrite Hrun2. done.
Qed.

Lemma retry_ignores_exit_code_witness :
  let h := Demo.flaky 0 in
  let r := Demo.call "azdata bdc status" false in
  let s1 := add_hints r azdata_hints Demo.fresh in
  ∃ s' evs res,
    run h (retry_request r) (spawned s1) = Some (s', evs, res) ∧
    outcome_of (run h r Demo.fresh) = Some res ∧
    (∃ shown, (fst <$> run h r Demo.fresh)
              = Some (s', shown ++ EvRetry 0 "Endpoint livy does not exist" :: evs)) ∧
    ∀ code, run (override_exit h (popen_calls s1) code) r Demo.fresh = run h r Demo.fresh.
Proof.
  intros h r s1.
  apply (retry_ignores_exit_code h r Demo.fresh s1 "azdata" ["bdc"; "status"]
           (Some azdata_hints.2) "/bin/azdata"
           {| stdout := Demo.line "connecting";
              stderr := Demo.line "ERROR: Endpoint livy does not exist";
              returncode := 0 |}
           [] [] (Demo.line "ERROR: Endpoint livy does not exist")
           ["Endpoint sql-server-master does not exist"]
           (drop 2 azdata_hints.1.1) "Endpoint livy does not exist").
  - vm_compute. lia.
  - reflexivity.
  - reflexivity.
  - reflexivity.
  - reflexivity.
  - reflexivity.
  - reflexivity.
  - constructor.
  - reflexivity.
  - apply (bool_decide_unpack _). vm_compute. exact I.
  - apply (bool_decide_unpack _). vm_compute. exact I.
Defined.

(** ** The bound on the attempts *)

Section Attempts.

Context (h : host).

Lemma enter_counts_app (a b : list event) :
  enter_counts (a ++ b) = enter_counts a ++ enter_counts b.
Proof. apply omap_app. Qed.

Lemma enter_counts_cons (e : event) (evs : list event) :
  enter_counts (e :: evs) =
  match enter_of e with Some n => n :: enter_counts evs | None => enter_counts evs end.
Proof. done. Qed.

Lemma enter_counts_suggest_install ih : enter_counts (suggest_install ih) = [].
Proof. by destruct ih. Qed.

Lemma enter_counts_hyperlink line : enter_counts (hyperlink line) = [].
Proof. unfold hyperlink. destruct (summary_match line) as [[g1 g2]|]; [| done]. by destruct (negb _). Qed.

Lemma enter_counts_pump_stdout r lines acc :
  enter_counts (pump_stdout r lines acc).1 = [].
Proof.
  revert acc. induction lines as [|l lines IH]; intros acc; cbn [pump_stdout]; [done |].
  destruct (return_output r); [apply IH |].
  specialize (IH acc). destruct (pump_stdout r lines acc) as [evs out]. cbn [fst] in *.
  rewrite enter_counts_app, IH.
  destruct (startswith _ _); [by rewrite enter_counts_hyperlink | done].
Qed.

Lemma enter_counts_show_error_hints line table :
  enter_counts (show_error_hints line table) = [].
Proof.
  induction table as [|e table IH]; cbn [show_error_hints]; [done |].
  by destruct (negb _).
Qed.

Lemma enter_counts_pump_stderr rc et rt lines :
  enter_counts (pump_stderr rc et rt lines).1 = [].
Proof.
  induction lines as [|l lines IH]; cbn [pump_stderr]; [done |].
  destruct (String.eqb l EmptyString); [done |].
  destruct (scan_retry_hints rc l rt).
  - cbn [fst]. rewrite enter_counts_app, enter_counts_cons. cbn [enter_of].
    by rewrite enter_counts_show_error_hints.
  - destruct (pump_stderr rc et rt lines) as [evs o]. cbn [fst] in *.
    rewrite enter_counts_app, IH, enter_counts_cons. cbn [enter_of].
    by rewrite enter_counts_show_error_hints.
Qed.

Lemma enter_counts_finish r p output : enter_counts (finish r p output).1 = [].
Proof. unfold finish. by destruct (negb _). Qed.

(** The invocations of a run carry consecutive counts, the last of which does
    not exceed [max_retries] unless the first one did; each invocation starts
    at most one process. *)
Lemma run_n_enters fuel r s s' evs res :
  run_n fuel h r s = Some (s', evs, res) →
  ∃ k, enter_counts evs = seq (retry_count r) (S k)
       ∧ (k = 0 ∨ retry_count r + k ≤ max_retries)%nat
       ∧ (popen_calls s' ≤ popen_calls s + S k)%nat.
Proof.
  revert r s s' evs res. induction fuel as [|fuel IH]; intros r s s' evs res; [done |].
  cbn [run_n].
  destruct (prologue h r s) as [s1 [e | [[|c0 args] ih]]] eqn:Hpro;
    apply prologue_popen_calls in Hpro;
    [intros [= <- <- <-]; exists 0%nat; split_and!; [done | by left | lia].. |].
  destruct (which h c0) as [wb|].
  2:{ intros [= <- <- <-]. exists 0%nat. split_and!; [| by left | lia].
      by rewrite enter_counts_cons, enter_counts_suggest_install. }
  destruct (popen h (popen_calls s1) (wb :: args)) as [p|].
  2:{ intros [= <- <- <-]. exists 0%nat. split_and!; [| by left | cbn; lia].
      cbn [app]. by rewrite !enter_counts_cons, enter_counts_suggest_install. }
  destruct (no_output r).
  { pose proof (enter_counts_finish r p EmptyString) as Hfin.
    destruct (finish r p EmptyString) as [fin_evs fin]. intros [= <- <- <-].
    exists 0%nat. split_and!; [| by left | cbn; lia].
    cbn [app fst] in *. by rewrite !enter_counts_cons, Hfin. }
  pose proof (enter_counts_pump_stdout r (readlines (stdout p)) EmptyString) as Hout.
  destruct (pump_stdout _ _ _) as [out_evs output].
  pose proof (enter_counts_pump_stderr (retry_count r)
                (error_lists (spawned s1) !!! error_hints r)
                (retry_lists (spawned s1) !!! retry_hints r) (readlines (stderr p))) as Herr.
  destruct (pump_stderr _ _ _ _) as [err_evs [hint|]] eqn:Hpump; cbn [fst] in *.
  - apply pump_stderr_Some in Hpump.
    destruct (run_n fuel h (retry_request r) (spawned s1)) as [[[s2 evs2] res2]|] eqn:Hrec;
      [| done].
    apply IH in Hrec as (k & Hk & Hbound & Hcalls).
    cbn [retry_request retry_count spawned popen_calls] in *.
    intros Heq. exists (S k).
    assert (s' = s2 ∧ evs = ([EvEnter (retry_count r); EvStart (cmd r) wb]
                             ++ [EvPopen (wb :: args) (negb false)])
                            ++ out_evs ++ err_evs ++ evs2) as [-> ->]
      by (destruct res2; by simplify_eq).
    split_and!; [| lia | lia].
    cbn [app]. rewrite !enter_counts_cons, !enter_counts_app, Hout, Herr, Hk. done.
  - pose proof (enter_counts_finish r p output) as Hfin.
    destruct (finish r p output) as [fin_evs fin]. intros [= <- <- <-].
    exists 0%nat. split_and!; [| by left | cbn; lia].
    cbn [app fst] in *.
    rewrite !enter_counts_cons, !enter_counts_app, Hout, Herr, Hfin. done.
Qed.

End Attempts.

(** C7. [run] returns: the recursion is at most [max_retries - retry_count]
    calls deep, any larger bound on its depth gives the same run, and a run is
    made of at most [max_retries - retry_count] invocations after the first,
    each of which starts at most one process. *)
Theorem run_terminates (h : host) (r : request) (s : state) :
  ∃ s' evs res,
    run h r s = Some (s', evs, res) ∧
    (∀ fuel, (max_retries - retry_count r < fuel)%nat → run_n fuel h r s = Some (s', evs, res)) ∧
    (length (enter_counts evs) ≤ S (max_retries - retry_count r))%nat ∧
    (popen_calls s' ≤ popen_calls s + S (max_retries - retry_count r))%nat.
Proof.
  destruct (run_n_total h (S (max_retries - retry_count r)) r s) as [[[s' evs] res] Hrun];
    [lia |].
  exists s', evs, res. split; [done |]. split.
  - intros fuel Hfuel. rewrite <- Hrun. apply run_n_fuel; lia.
  - apply run_n_enters in Hrun as (k & Hk & Hbound & Hcalls).
    rewrite Hk, length_seq. lia.
Qed.

(** C2. In a run that starts with [retry_count <= max_retries], every
    invocation of [run] has [retry_count <= max_retries].  An invocation with
    [retry_count = max_retries] that reaches its process does not retry: every
    line of standard error is echoed and classified, whatever it holds, and a
    non-zero exit code is raised to the caller as [SystemExit]. *)
Theorem retry_count_never_exceeds_max (h : host) (r : request) (s s' : state)
    (evs : list event) (res : outcome) :
  (retry_count r ≤ max_retries)%nat →
  run h r s = Some (s', evs, res) →
  Forall (λ n, (n ≤ max_retries)%nat) (enter_counts evs) ∧
  (retry_count r = max_retries →
   no_output r = false →
   ∀ s1 c0 args ih wb p,
     prologue h r s = (s1, inr (c0 :: args, ih)) →
     which h c0 = Some wb →
     popen h (popen_calls s1) (wb :: args) = Some p →
     let out := pump_stdout r (readlines (stdout p)) EmptyString in
     enter_counts evs = [max_retries] ∧
     s' = spawned s1 ∧
     evs = [EvEnter max_retries; EvStart (cmd r) wb; EvPopen (wb :: args) true]
             ++ out.1
             ++ flat_map (echo (error_lists s1 !!! error_hints r)) (readlines (stderr p))
             ++ (finish r p out.2).1 ∧
     res = (finish r p out.2).2 ∧
     (returncode p ≠ 0 → res = Raise (SystemExit (cmd r) (returncode p)))).
Proof.
  intros Hrc Hrun. split.
  - apply (run_n_enters h) in Hrun as (k & -> & Hbound & _).
    apply Forall_forall. intros n Hn. apply elem_of_seq in Hn. lia.
  - intros Hmax Hno s1 c0 args ih wb p Hpro Hw Hpo out.
    unfold run in Hrun. erewrite run_n_finish_step in Hrun; [| done.. |].
    2:{ apply pump_stderr_exhausted; [lia | apply readlines_nonempty]. }
    fold out in Hrun. destruct out as [out_evs output] eqn:Hout. cbn [fst snd].
    destruct (finish r p output) as [fin_evs fin] eqn:Hfin. cbn [fst snd].
    injection Hrun as <- <- <-. rewrite Hmax. split_and!; try done.
    + cbn [app]. rewrite !enter_counts_cons, !enter_counts_app. cbn [enter_of].
      pose proof (enter_counts_pump_stdout r (readlines (stdout p)) EmptyString) as H1.
      fold out in H1. rewrite Hout in H1. cbn [fst] in H1. rewrite H1.
      pose proof (enter_counts_finish r p output) as H2. rewrite Hfin in H2.
      cbn [fst] in H2. rewrite H2.
      pose proof (enter_counts_pump_stderr max_retries (error_lists s1 !!! error_hints r)
                    (retry_lists s1 !!! retry_hints r) (readlines (stderr p))) as H3.
      rewrite pump_stderr_exhausted in H3 by (done || apply readlines_nonempty).
      cbn [fst] in H3. by rewrite H3.
    + intros Hcode. unfold finish in Hfin.
      destruct (Z.eqb_spec (returncode p) 0); [done |]. by simplify_eq/=.
Qed.

Lemma retry_count_never_exceeds_max_witness :
  let h := Demo.failing in
  let r := {| cmd := "azdata bdc status"; return_output := false; no_output := false;
              error_hints := default_error_hints; retry_hints := default_retry_hints;
              retry_count := 5 |} in
  let s1 := add_hints r azdata_hints Demo.fresh in
  let evs := [EvEnter 5; EvStart "azdata bdc status" "/bin/azdata";
              EvPopen ["/bin/azdata"; "bdc"; "status"] true;
              EvPrint ("ERR: " +:+ Demo.line "ERROR: Endpoint livy does not exist");
              EvPrint ("ERR: " +:+ Demo.line "giving up")] in
  run h r Demo.fresh = Some (spawned s1, evs, Raise (SystemExit "azdata bdc status" 1)) ∧
  Forall (λ n, (n ≤ max_retries)%nat) (enter_counts evs) ∧
  enter_counts evs = [max_retries].
Proof.
  intros h r s1 evs.
  assert (run h r Demo.fresh = Some (spawned s1, evs, Raise (SystemExit "azdata bdc status" 1)))
    as Hrun by reflexivity.
  assert ((retry_count r ≤ max_retries)%nat) as Hrc by (vm_compute; lia).
  destruct (retry_count_never_exceeds_max h r Demo.fresh (spawned s1) evs
              (Raise (SystemExit "azdata bdc status" 1)) Hrc Hrun) as [Hall Hlast].
  split; [exact Hrun |]. split; [exact Hall |].
  exact (proj1 (Hlast eq_refl eq_refl s1 "azdata" ["bdc"; "status"] (Some azdata_hints.2)
                  "/bin/azdata"
                  {| stdout := EmptyString;
                     stderr := Demo.line "ERROR: Endpoint livy does not exist"
                               +:+ Demo.line "giving up";
                     returncode := 1 |}
                  eq_refl eq_refl eq_refl)).
Defined.

(** ** The executable that is not found *)

Section NotFound.

Context (h : host).

(** After the three prefix tests: the name to look up and the install hint. *)
Lemma prologue_tokens r s tok args :
  shlex_split h (cmd r) = Some (tok :: args) →
  (startswith (cmd r) "python " = true → is_Some (python_hints h)) →
  ∃ s1, prologue h r s =
        (s1, inr (looked_up h (cmd r) tok :: args, family_install_hint h (cmd r))).
Proof.
  intros Hsplit Hpy. unfold prologue, looked_up, family_install_hint. rewrite Hsplit.
  destruct (startswith (cmd r) "python ").
  - destruct Hpy as [hs ->]; [done |].
    destruct (startswith (cmd r) "kubectl "), (startswith (cmd r) "azdata "); by eexists.
  - destruct (startswith (cmd r) "kubectl "), (startswith (cmd r) "azdata "); by eexists.
Qed.

End NotFound.

(** C3, as the code has it.  The name looked up on the search path is the
    first token, or for a python command the first token with [python]
    replaced by the path of the host interpreter.  When that name is not
    found, [run] shows the install hint of the tool family, if there is one,
    raises [FileNotFoundError] carrying the name, and has started no process.
    (For a python command this needs [python_hints] to be defined.) *)
Theorem missing_executable_raises_not_found (h : host) (r : request) (s : state)
    (tok : string) (args : list string) :
  shlex_split h (cmd r) = Some (tok :: args) →
  (startswith (cmd r) "python " = true → is_Some (python_hints h)) →
  which h (looked_up h (cmd r) tok) = None →
  ∃ s', run h r s =
        Some (s',
              EvEnter (retry_count r) :: suggest_install (family_install_hint h (cmd r)),
              Raise (FileNotFoundError (looked_up h (cmd r) tok)))
        ∧ popen_calls s' = popen_calls s.
Proof.
  intros Hsplit Hpy Hwhich.
  destruct (prologue_tokens h r s tok args Hsplit Hpy) as [s1 Hpro].
  exists s1. unfold run. cbn [run_n]. rewrite Hpro, Hwhich. split; [done |].
  by eapply prologue_popen_calls.
Qed.

Lemma missing_executable_raises_not_found_witness :
  ∃ s', run (Demo.quiet EmptyString EmptyString) (Demo.call "kubectl get pods" true) Demo.fresh =
        Some (s',
              [EvEnter 0;
               EvDisplay "SUGGEST: Use [SOP036 - Install kubectl command line interface](../install/sop036-install-kubectl.ipynb)' to resolve this issue."],
              Raise (FileNotFoundError "kubectl"))
        ∧ popen_calls s' = 0%nat.
Proof.
  apply (missing_executable_raises_not_found (Demo.quiet EmptyString EmptyString)
           (Demo.call "kubectl get pods" true) Demo.fresh "kubectl" ["get"; "pods"]).
  - reflexivity.
  - intros H. vm_compute in H. discriminate H.
  - reflexivity.
Defined.

(** C3 does not hold for python commands: with [python] absent from the
    search path, the run ends in [NameError] where [python_hints] is not
    defined, and starts the host interpreter where it is. *)
Lemma python_first_token_not_looked_up :
  let h := Demo.quiet EmptyString EmptyString in
  let r := Demo.call "python -m pip list" false in
  shlex_split h (cmd r) = Some ["python"; "-m"; "pip"; "list"] ∧
  which h "python" = None ∧
  outcome_of (run h r Demo.fresh) = Some (Raise (NameError "python_hints")) ∧
  ∃ s',
    run (Demo.with_python_hints h ([], [], "[SOP - Install python]")) r Demo.fresh =
    Some (s',
          [EvEnter 0; EvStart "python -m pip list" "/ads/python3";
           EvPopen ["/ads/python3"; "-m"; "pip"; "list"] true; EvSuccess],
          Return None).
Proof.
  intros h r. split; [reflexivity |]. split; [reflexivity |]. split; [reflexivity |].
  eexists. reflexivity.
Qed.

(** ** Blank lines on standard error *)

(** C5, at the input on which the code departs from it: a line read from the
    pipe keeps its terminator, so no line is the empty text and the test that
    should drop blank lines never holds; a blank line written by the tool is
    echoed as an error line and classified like any other. *)
Theorem blank_stderr_line_is_echoed :
  (∀ s : string, Forall (λ l, l ≠ EmptyString) (readlines s)) ∧
  (∀ rc et rt rest, ∃ evs retry,
     pump_stderr rc et rt (readlines (String nl rest)) =
     (EvPrint ("ERR: " +:+ String nl EmptyString)
        :: show_error_hints (String nl EmptyString) et ++ evs, retry)) ∧
  ∃ s',
    run (Demo.quiet EmptyString (String nl EmptyString))
        (Demo.call "azdata bdc hdfs cp" false) Demo.fresh =
    Some (s',
          [EvEnter 0; EvStart "azdata bdc hdfs cp" "/bin/azdata";
           EvPopen ["/bin/azdata"; "bdc"; "hdfs"; "cp"] true;
           EvPrint ("ERR: " +:+ String nl EmptyString); EvSuccess],
          Return None).
Proof.
  split; [apply readlines_nonempty |]. split.
  - intros rc et rt rest. cbn [readlines]. rewrite Ascii.eqb_refl. cbn [pump_stderr String.eqb].
    destruct (scan_retry_hints rc (String nl EmptyString) rt).
    + eexists _, _. unfold echo. rewrite <- app_comm_cons. done.
    + destruct (pump_stderr rc et rt (readlines rest)) as [evs retry].
      eexists _, _. rewrite <- app_comm_cons. done.
  - eexists. reflexivity.
Qed.

(** ** Standard output *)

Section Summary.

Lemma count_char_app c a b : count_char c (a +:+ b) = (count_char c a + count_char c b)%nat.
Proof.
  induction a as [|x a IH]; [done |]. rewrite append_cons. cbn [count_char].
  destruct (Ascii.eqb x c); lia.
Qed.

Lemma lit_Some p s t : lit p s = Some t ↔ s = p +:+ t.
Proof.
  revert s. induction p as [|a p IH]; intros s.
  - destruct s; cbn [lit]; rewrite append_nil_l; split; congruence.
  - destruct s as [|b s]; cbn [lit]; rewrite append_cons.
    + split; discriminate.
    + destruct (Ascii.eqb a b) eqn:E.
      * apply Ascii.eqb_eq in E as ->. rewrite IH. split; congruence.
      * split; [discriminate |]. intros [= -> _]. by rewrite Ascii.eqb_refl in E.
Qed.

Lemma lit_app p s : lit p (p +:+ s) = Some s.
Proof. by apply lit_Some. Qed.








End Summary.




(** ** Remediation hints and control flow *)

Section Noninterference.

Context (h : host).

Lemma prologue_control r s l m :
  (prologue h (with_error_hints r l) (with_error_lists s m)).2 = (prologue h r s).2
  ∧ retry_lists (prologue h (with_error_hints r l) (with_error_lists s m)).1
    = retry_lists (prologue h r s).1
  ∧ environ (prologue h (with_error_hints r l) (with_error_lists s m)).1
    = environ (prologue h r s).1
  ∧ popen_calls (prologue h (with_error_hints r l) (with_error_lists s m)).1
    = popen_calls (prologue h r s).1.
Proof.
  unfold prologue. cbn [with_error_hints cmd].
  destruct (shlex_split h (cmd r)) as [[|c0 args]|]; [| | done].
  - destruct (startswith (cmd r) "python "); [done |].
    by destruct (startswith (cmd r) "kubectl "), (startswith (cmd r) "azdata ").
  - destruct (startswith (cmd r) "python ").
    + unfold set_locale. cbn [with_error_lists environ].
      destruct (_ && _), (python_hints h);
        by destruct (startswith (cmd r) "kubectl "), (startswith (cmd r) "azdata ").
    + by destruct (startswith (cmd r) "kubectl "), (startswith (cmd r) "azdata ").
Qed.

(** The state after the prologue of the modified call is the state after the
    prologue of the original call with other remediation lists. *)
Lemma prologue_with_error_lists r s l m :
  ∃ m', (prologue h (with_error_hints r l) (with_error_lists s m)).1
        = with_error_lists (prologue h r s).1 m'.
Proof.
  destruct (prologue_control r s l m) as (_ & H1 & H2 & H3).
  destruct (prologue h (with_error_hints r l) (with_error_lists s m)).1 as [m' rl env pc].
  exists m'. unfold with_error_lists. cbn in *. by subst.
Qed.

Lemma run_n_control fuel r s l m :
  control_of (run_n fuel h (with_error_hints r l) (with_error_lists s m))
  = control_of (run_n fuel h r s).
Proof.
  revert r s l m. induction fuel as [|fuel IH]; intros r s l m; [done |].
  cbn [run_n].
  destruct (prologue_control r s l m) as (Hres & _).
  destruct (prologue_with_error_lists r s l m) as [m' Hst].
  destruct (prologue h (with_error_hints r l) (with_error_lists s m)) as [s1' res'].
  destruct (prologue h r s) as [s1 res]. cbn [fst snd] in *. subst s1' res'.
  destruct res as [e | [[|c0 args] ih]]; [done.. |].
  destruct (which h c0) as [wb|]; [| done].
  cbn [with_error_lists popen_calls with_error_hints cmd no_output retry_count].
  destruct (popen h (popen_calls s1) (wb :: args)) as [p|]; [| done].
  destruct (no_output r).
  { unfold finish. cbn [with_error_hints return_output cmd]. by destruct (negb _). }
  assert (pump_stdout (with_error_hints r l) (readlines (stdout p)) EmptyString
          = pump_stdout r (readlines (stdout p)) EmptyString) as ->.
  { generalize EmptyString. induction (readlines (stdout p)) as [|x xs IHx]; intros acc; [done |].
    cbn [pump_stdout with_error_hints return_output cmd]. by rewrite !IHx. }
  destruct (pump_stdout r (readlines (stdout p)) EmptyString) as [out_evs output].
  pose proof (pump_stderr_control (retry_count r)
                (error_lists (spawned (with_error_lists s1 m')) !!! l)
                (error_lists (spawned s1) !!! error_hints r)
                (retry_lists (spawned s1) !!! retry_hints r)
                (readlines (stderr p))) as Hctl.
  cbn [spawned with_error_lists error_lists retry_lists with_error_hints error_hints
       retry_hints] in *.
  destruct (pump_stderr _ (m' !!! l) _ _) as [err_evs' retry'].
  destruct (pump_stderr _ (error_lists s1 !!! error_hints r) _ _) as [err_evs retry].
  cbn [snd] in Hctl. subst retry'.
  destruct retry as [hint|].
  - specialize (IH (retry_request r) (spawned s1) l m').
    change (retry_request (with_error_hints r l)) with (with_error_hints (retry_request r) l).
    change (spawned (with_error_lists s1 m')) with (with_error_lists (spawned s1) m').
    destruct (run_n fuel h (with_error_hints (retry_request r) l)
                (with_error_lists (spawned s1) m')) as [[[s2' evs2'] o2']|];
      destruct (run_n fuel h (retry_request r) (spawned s1)) as [[[s2 evs2] o2]|];
      cbn in IH; simplify_eq; [| done].
    destruct o2; cbn; congruence.
  - unfold finish. cbn [return_output cmd]. by destruct (negb _).
Qed.

End Noninterference.

(** C8. The remediation table has no part in what [run] returns or raises:
    with any other list object and any other contents in place of
    [error_hints], the outcome is the same, and so are the retry lists, the
    environment and the number of processes started. *)
Theorem error_hints_do_not_change_control (h : host) (r : request) (s : state)
    (l : loc) (m : gmap loc (list error_hint)) :
  outcome_of (run h (with_error_hints r l) (with_error_lists s m)) = outcome_of (run h r s) ∧
  control_of (run h (with_error_hints r l) (with_error_lists s m)) = control_of (run h r s).
Proof.
  assert (control_of (run h (with_error_hints r l) (with_error_lists s m))
          = control_of (run h r s)) as H by apply run_n_control.
  split; [| done].
  destruct (run h (with_error_hints r l) (with_error_lists s m)) as [[[s1 e1] o1]|],
           (run h r s) as [[[s2 e2] o2]|]; cbn in *; by simplify_eq.
Qed.

(** ** What a call leaves behind *)

Section Leftovers.

Context (h : host).

Lemma prologue_environ r s :
  environ (prologue h r s).1 =
  if fixes_locale h r s then <["LC_ALL" := "en_US.UTF-8"]> (environ s) else environ s.
Proof.
  unfold prologue, fixes_locale.
  destruct (shlex_split h (cmd r)) as [[|c0 args]|].
  - rewrite andb_false_r. cbn [andb].
    destruct (startswith (cmd r) "python "); [done |].
    by destruct (startswith (cmd r) "kubectl "), (startswith (cmd r) "azdata ").
  - rewrite andb_true_r. destruct (startswith (cmd r) "python "); cbn [andb].
    + unfold set_locale.
      destruct (_ && _), (python_hints h);
        by destruct (startswith (cmd r) "kubectl "), (startswith (cmd r) "azdata ").
    + by destruct (startswith (cmd r) "kubectl "), (startswith (cmd r) "azdata ").
  - by rewrite andb_false_r.
Qed.

(** The locale fix-up is the one change a run makes to the environment. *)
Lemma run_n_environ fuel r s s' evs res :
  run_n fuel h r s = Some (s', evs, res) →
  environ s' =
  if fixes_locale h r s then <["LC_ALL" := "en_US.UTF-8"]> (environ s) else environ s.
Proof.
  revert r s s' evs res. induction fuel as [|fuel IH]; intros r s s' evs res; [done |].
  cbn [run_n]. pose proof (prologue_environ r s) as Henv.
  destruct (prologue h r s) as [s1 [e | [[|c0 args] ih]]]; cbn [fst] in Henv;
    [by intros [= <- <- <-].. |].
  destruct (which h c0) as [wb|]; [| by intros [= <- <- <-]].
  destruct (popen h (popen_calls s1) (wb :: args)) as [p|];
    [| intros [= <- <- <-]; exact Henv].
  destruct (no_output r).
  { destruct (finish r p EmptyString). intros [= <- <- <-]. exact Henv. }
  destruct (pump_stdout _ _ _) as [out_evs output].
  destruct (pump_stderr _ _ _ _) as [err_evs [hint|]].
  - destruct (run_n fuel h (retry_request r) (spawned s1)) as [[[s2 evs2] res2]|] eqn:Hrec;
      [| done].
    apply IH in Hrec. intros Heq.
    assert (s' = s2) as -> by (destruct res2; by simplify_eq).
    rewrite Hrec. unfold fixes_locale in *.
    cbn [retry_request cmd spawned environ] in *. rewrite Henv.
    destruct (startswith (cmd r) "python "
              && match shlex_split h (cmd r) with Some (_ :: _) => true | _ => false end
              && String.eqb (platform_system h) "Darwin"); cbn [andb]; [| done].
    repeat case_bool_decide; by simplify_map_eq.
  - destruct (finish r p output). intros [= <- <- <-]. exact Henv.
Qed.

End Leftovers.

(** C9 does not hold of the hint lists and of the environment.  The hints
    that a first call appends to the default list object are found there by
    the next call, which retries where it would have failed; and the locale
    set for a python command stays set. *)
Lemma hint_lists_and_locale_outlive_the_call :
  let h := Demo.busy_port in
  (∃ s1 evs1,
     run h (Demo.call "azdata bdc status" false) Demo.fresh = Some (s1, evs1, Return None) ∧
     retry_lists Demo.fresh !!! default_retry_hints = [] ∧
     retry_lists s1 !!! default_retry_hints = azdata_hints.1.1 ∧
     outcome_of (run h (Demo.call "tool sync" false) s1) = Some (Return None) ∧
     outcome_of (run h (Demo.call "tool sync" false) (Demo.with_fresh_defaults s1))
       = Some (Raise (SystemExit "tool sync" 1))) ∧
  (∃ s2 evs2 res2,
     run h (Demo.call "python -m pip list" false) Demo.fresh = Some (s2, evs2, res2) ∧
     environ Demo.fresh !! "LC_ALL" = None ∧
     environ s2 !! "LC_ALL" = Some "en_US.UTF-8").
Proof.
  intros h. split.
  - eexists _, _. split; [reflexivity |]. repeat split; reflexivity.
  - eexists _, _, _. split; [reflexivity |]. split; reflexivity.
Qed.

(** * Further properties of the runner *)

(** ** The classifier over joined tables *)

Section Tables.

Lemma show_error_hints_app line (a b : list error_hint) :
  show_error_hints line (a ++ b) = show_error_hints line a ++ show_error_hints line b.
Proof.
  induction a as [|e a IH]; [done |]. cbn [app show_error_hints].
  destruct (negb _); by rewrite IH.
Qed.

Lemma scan_retry_hints_app rc line (a b : list string) :
  scan_retry_hints rc line (a ++ b) =
  match scan_retry_hints rc line a with
  | Some hint => Some hint
  | None => scan_retry_hints rc line b
  end.
Proof.
  induction a as [|p a IH]; [done |]. cbn [app scan_retry_hints].
  by destruct (_ && _).
Qed.

End Tables.

(** X8. Joining two tables joins what the classifier finds: the suggestions
    for the joined remediation table are those of the first table followed by
    those of the second, and the retry loop acts on the second table only
    where the first has nothing.  So a table that holds its entries twice,
    as the lists do after a retry, shows every suggestion twice and leaves
    the retry decision as it was. *)
Theorem classifier_over_joined_tables (rc : nat) (line : string)
    (a b : list error_hint) (c d : list string) :
  show_error_hints line (a ++ b) = show_error_hints line a ++ show_error_hints line b ∧
  scan_retry_hints rc line (c ++ d) =
    match scan_retry_hints rc line c with
    | Some hint => Some hint
    | None => scan_retry_hints rc line d
    end ∧
  show_error_hints line (a ++ a) = show_error_hints line a ++ show_error_hints line a ∧
  scan_retry_hints rc line (c ++ c) = scan_retry_hints rc line c.
Proof.
  split_and!.
  - apply show_error_hints_app.
  - apply scan_retry_hints_app.
  - apply show_error_hints_app.
  - rewrite scan_retry_hints_app. by destruct (scan_retry_hints rc line c).
Qed.

(** ** What the summary pattern accepts *)

Section Pattern.

(** A greedy group is free of line terminators and is followed by a text on
    which the rest of the pattern succeeds. *)
Lemma dotstar_sound {A} (s : string) (k : string → option A) g a :
  dotstar s k = Some (g, a) →
  count_char nl g = O ∧ ∃ rest, s = g +:+ rest ∧ k rest = Some a.
Proof.
  revert g a. induction s as [|c s IH]; intros g a; cbn [dotstar].
  - destruct (k EmptyString) as [x|] eqn:E; [| done]. intros [= <- <-].
    split; [done |]. by exists EmptyString.
  - assert (pair EmptyString <$> k (String c s) = Some (g, a) →
            count_char nl g = O ∧ ∃ rest, String c s = g +:+ rest ∧ k rest = Some a) as Hhere.
    { destruct (k (String c s)) as [x|] eqn:E; [| done]. intros [= <- <-].
      split; [done |]. by exists (String c s). }
    destruct (Ascii.eqb c nl) eqn:Hc; [done |].
    destruct (dotstar s k) as [[g0 a0]|]; [| done].
    intros [= <- <-]. destruct (IH _ _ eq_refl) as (Hg & rest & -> & Hk).
    split.
    + cbn [count_char]. by rewrite Hc.
    + exists rest. by rewrite append_cons.
Qed.

(** Where a greedy group fails, the rest of the pattern fails after every
    run of characters other than the line terminator. *)
Lemma dotstar_None_inv {A} (s : string) (k : string → option A) a b :
  dotstar s k = None → s = a +:+ b → count_char nl a = O → k b = None.
Proof.
  revert a. induction s as [|c s IH]; intros a; cbn [dotstar].
  - intros Hk Hs _. destruct a; [| discriminate]. rewrite append_nil_l in Hs. subst b.
    by destruct (k EmptyString).
  - intros Hd Hs Ha. destruct a as [|x a].
    + rewrite append_nil_l in Hs. subst b.
      destruct (Ascii.eqb c nl); [by destruct (k (String c s)) |].
      destruct (dotstar s k) as [[g0 a0]|]; [done |]. by destruct (k (String c s)).
    + rewrite append_cons in Hs. injection Hs as -> ->. cbn [count_char] in Ha.
      destruct (Ascii.eqb x nl); [done |].
      destruct (dotstar (a +:+ b) k) as [[g0 a0]|] eqn:E; [done |].
      by eapply IH.
Qed.

(** A greedy group takes all it can: the rest of the pattern fails after any
    longer run of characters other than the line terminator. *)
Lemma dotstar_longest {A} (s : string) (k : string → option A) g a more rest :
  dotstar s k = Some (g, a) →
  s = g +:+ more +:+ rest → more ≠ EmptyString → count_char nl more = O →
  k rest = None.
Proof.
  revert g a. induction s as [|c s IH]; intros g a; cbn [dotstar].
  - intros _ Hs Hmore. destruct g; [| discriminate]. rewrite append_nil_l in Hs.
    destruct more; [done | discriminate].
  - intros Hd Hs Hmore Hnl.
    assert (pair EmptyString <$> k (String c s) = Some (g, a) →
            (Ascii.eqb c nl = true ∨ dotstar s k = None) → k rest = None) as Hhere.
    { destruct (k (String c s)) as [x|]; [| done]. intros [= <- <-] Hcase.
      rewrite append_nil_l in Hs. destruct more as [|y more]; [done |].
      rewrite append_cons in Hs. injection Hs as -> ->. cbn [count_char] in Hnl.
      destruct (Ascii.eqb y nl) eqn:Hy; [done |].
      destruct Hcase as [? | Hnone]; [done |]. by eapply dotstar_None_inv. }
    destruct (Ascii.eqb c nl) eqn:Hc; [by apply Hhere; [| left] |].
    destruct (dotstar s k) as [[g0 a0]|] eqn:E; [| by apply Hhere; [| right]].
    injection Hd as <- <-. rewrite append_cons in Hs. injection Hs as ->.
    by eapply IH.
Qed.

End Pattern.

(** X9. What the summary pattern yields is what the line holds: when the
    pattern matches, the line is two spaces, the quoted key, a colon and a
    space, the quoted value, and a rest; neither group holds a line
    terminator; and the value runs up to the last quote of the line, so the
    rest has no quote before a line terminator. *)
Theorem summary_match_decomposes (line key value : string) :
  summary_match line = Some (key, value) →
  ∃ rest,
    line = summary_line key value rest ∧
    count_char nl key = O ∧ count_char nl value = O ∧
    ∀ a b, rest = a +:+ dq +:+ b → count_char nl a ≠ O.
Proof.
  unfold summary_match. intros H.
  destruct (lit ("  " +:+ dq) line) as [s1|] eqn:E1; [| done]. cbn [mbind option_bind] in H.
  apply lit_Some in E1 as ->.
  change (dotstar s1 after_key ≫= (λ '(g1, g2), Some (g1, g2)) = Some (key, value)) in H.
  destruct (dotstar s1 after_key) as [[g1 g2]|] eqn:E2; [| done].
  cbn [mbind option_bind] in H. injection H as -> ->.
  apply dotstar_sound in E2 as (Hkey & rest1 & -> & Hafter).
  unfold after_key in Hafter.
  destruct (lit (dq +:+ ": " +:+ dq) rest1) as [s3|] eqn:E3; [| done].
  cbn [mbind option_bind] in Hafter. apply lit_Some in E3 as ->.
  destruct (dotstar s3 (lit dq)) as [[g r]|] eqn:E4; [| done].
  cbn in Hafter. injection Hafter as ->.
  pose proof E4 as Hlong. apply dotstar_sound in E4 as (Hvalue & rest2 & -> & Hq).
  apply lit_Some in Hq as ->.
  exists r. split_and!; [| done | done |].
  - unfold summary_line. by rewrite !append_assoc.
  - intros a b -> Ha.
    assert (lit dq (dq +:+ b) = None) as Hnone.
    { eapply (dotstar_longest _ _ _ _ (dq +:+ a)); [exact Hlong | | done |].
      - by rewrite !append_assoc.
      - rewrite count_char_app, Ha. done. }
    by rewrite lit_app in Hnone.
Qed.

Lemma summary_match_decomposes_witness :
  ∃ rest,
    "  " +:+ dq +:+ "k" +:+ dq +:+ ": " +:+ dq +:+ "v" +:+ dq +:+ "," +:+ String nl dq
      = summary_line "k" "v" rest ∧
    count_char nl "k" = O ∧ count_char nl "v" = O ∧
    ∀ a b, rest = a +:+ dq +:+ b → count_char nl a ≠ O.
Proof.
  apply (summary_match_decomposes
           ("  " +:+ dq +:+ "k" +:+ dq +:+ ": " +:+ dq +:+ "v" +:+ dq +:+ "," +:+ String nl dq)
           "k" "v").
  reflexivity.
Defined.

(** ** The notices of a run *)

Lemma retry_notices_app a b : retry_notices (a ++ b) = retry_notices a ++ retry_notices b.
Proof. apply omap_app. Qed.

Lemma successes_app a b : successes (a ++ b) = (successes a + successes b)%nat.
Proof. unfold successes. by rewrite omap_app, length_app. Qed.

Lemma retry_notices_cons e evs :
  retry_notices (e :: evs) =
  match retry_of e with Some n => n :: retry_notices evs | None => retry_notices evs end.
Proof. done. Qed.

Lemma successes_cons e evs :
  successes (e :: evs) =
  match success_of e with Some _ => S (successes evs) | None => successes evs end.
Proof. unfold successes. cbn. by destruct (success_of e). Qed.

(** Taking the notices of a trace apart, piece by piece. *)
Ltac split_notices :=
  cbn [app];
  repeat (progress (rewrite ?enter_counts_cons, ?retry_notices_cons, ?successes_cons,
                      ?enter_counts_app, ?retry_notices_app, ?successes_app;
                    cbn [enter_of retry_of success_of])).

Section Notices.

Context (h : host).

Lemma omap_plain {B} (f : event → option B) (evs : list event) :
  (∀ e, plain e → f e = None) → Forall plain evs → omap f evs = [].
Proof.
  intros Hf. induction 1 as [|e evs He _ IH]; [done |].
  cbn [omap list_omap]. by rewrite (Hf e He).
Qed.

Lemma retry_of_plain e : plain e → retry_of e = None.
Proof. by destruct e. Qed.

Lemma success_of_plain e : plain e → success_of e = None.
Proof. by destruct e. Qed.

Lemma suggest_install_plain ih : Forall plain (suggest_install ih).
Proof. destruct ih; by repeat constructor. Qed.

Lemma hyperlink_plain line : Forall plain (hyperlink line).
Proof.
  unfold hyperlink. destruct (summary_match line) as [[g1 g2]|]; [| constructor].
  destruct (negb _); by repeat constructor.
Qed.

Lemma pump_stdout_plain r lines acc : Forall plain (pump_stdout r lines acc).1.
Proof.
  revert acc. induction lines as [|l lines IH]; intros acc; cbn [pump_stdout]; [constructor |].
  destruct (return_output r); [apply IH |].
  specialize (IH acc). destruct (pump_stdout r lines acc) as [evs out]. cbn [fst] in *.
  apply Forall_app. split; [| done].
  destruct (startswith _ _); [apply hyperlink_plain | by repeat constructor].
Qed.

Lemma show_error_hints_plain line table : Forall plain (show_error_hints line table).
Proof.
  induction table as [|e table IH]; cbn [show_error_hints]; [constructor |].
  destruct (negb _); [by constructor | done].
Qed.

(** The loop over standard error shows plain output, closed by the retry
    notice when the loop is left on a retry hint. *)
Lemma pump_stderr_shape rc et rt lines evs retry :
  pump_stderr rc et rt lines = (evs, retry) →
  ∃ shown, Forall plain shown ∧
           evs = shown ++ match retry with Some hint => [EvRetry rc hint] | None => [] end.
Proof.
  revert evs. induction lines as [|l lines IH]; intros evs; cbn [pump_stderr].
  - intros [= <- <-]. by exists [].
  - destruct (String.eqb l EmptyString); [apply IH |].
    assert (Forall plain (EvPrint ("ERR: " +:+ l) :: show_error_hints l et)) as Hecho
      by (constructor; [done | apply show_error_hints_plain]).
    destruct (scan_retry_hints rc l rt) as [hint|].
    + intros [= <- <-]. eexists. split; [exact Hecho | done].
    + destruct (pump_stderr rc et rt lines) as [evs' o]. intros [= <- <-].
      destruct (IH _ eq_refl) as (shown & Hshown & ->).
      exists ((EvPrint ("ERR: " +:+ l) :: show_error_hints l et) ++ shown).
      split; [by apply Forall_app | by rewrite <- app_assoc].
Qed.

Lemma successes_plain evs : Forall plain evs → successes evs = O.
Proof. intros H. unfold successes. by rewrite (omap_plain _ _ success_of_plain H). Qed.

Lemma retry_notices_plain evs : Forall plain evs → retry_notices evs = [].
Proof. apply omap_plain, retry_of_plain. Qed.

Lemma enter_counts_plain evs : Forall plain evs → enter_counts evs = [].
Proof. apply omap_plain. by intros []. Qed.

Lemma finish_verdict r p output :
  finish r p output = (success_notice p, verdict r p output).
Proof. unfold finish, success_notice, verdict. by destruct (returncode p =? 0). Qed.

Lemma last_success_counted evs : last evs = Some EvSuccess → (1 ≤ successes evs)%nat.
Proof.
  intros H. destruct evs as [|e evs _] using rev_ind; [done |].
  rewrite last_snoc in H. injection H as ->. rewrite successes_app. cbn. lia.
Qed.

(** Every invocation but the last announces its retry with its own count, and
    success is announced once, at the very end, by a run that returns. *)
Lemma run_n_notices fuel r s s' evs res :
  run_n fuel h r s = Some (s', evs, res) →
  retry_notices evs = seq (retry_count r) (length (enter_counts evs) - 1) ∧
  successes evs = (if res is Return _ then 1 else 0)%nat ∧
  (∀ v, res = Return v → last evs = Some EvSuccess).
Proof.
  revert r s s' evs res. induction fuel as [|fuel IH]; intros r s s' evs res; [done |].
  cbn [run_n].
  destruct (prologue h r s) as [s1 [e | [[|c0 args] ih]]];
    [by intros [= <- <- <-].. |].
  pose proof (suggest_install_plain ih) as Hih.
  destruct (which h c0) as [wb|].
  2:{ intros [= <- <- <-].
      rewrite !enter_counts_cons, !retry_notices_cons, !successes_cons.
      cbn [enter_of retry_of success_of].
      by rewrite enter_counts_suggest_install, (retry_notices_plain _ Hih),
        (successes_plain _ Hih). }
  destruct (popen h (popen_calls s1) (wb :: args)) as [p|].
  2:{ intros [= <- <- <-]. cbn [app].
      rewrite !enter_counts_cons, !retry_notices_cons, !successes_cons.
      cbn [enter_of retry_of success_of].
      by rewrite enter_counts_suggest_install, (retry_notices_plain _ Hih),
        (successes_plain _ Hih). }
  destruct (no_output r).
  { rewrite finish_verdict. intros [= <- <- <-]. unfold success_notice, verdict.
    by destruct (returncode p =? 0). }
  pose proof (pump_stdout_plain r (readlines (stdout p)) EmptyString) as Hout.
  destruct (pump_stdout _ _ _) as [out_evs output]. cbn [fst] in Hout.
  destruct (pump_stderr _ _ _ _) as [err_evs retry] eqn:Herr.
  apply pump_stderr_shape in Herr as (shown & Hshown & ->).
  destruct retry as [hint|].
  - destruct (run_n fuel h (retry_request r) (spawned s1)) as [[[s2 evs2] res2]|] eqn:Hrec;
      [| done].
    pose proof (run_n_enters h _ _ _ _ _ _ Hrec) as (k & Hk & _).
    apply IH in Hrec as (Hretry & Hsucc & Hend).
    cbn [retry_request retry_count] in *. intros Heq.
    assert (evs = ([EvEnter (retry_count r); EvStart (cmd r) wb]
                   ++ [EvPopen (wb :: args) (negb false)])
                  ++ out_evs ++ (shown ++ [EvRetry (retry_count r) hint]) ++ evs2
            ∧ (res = res2 ∨ ∃ v v', res = Return v ∧ res2 = Return v')) as [-> Hres].
    { destruct res2; simplify_eq; split; eauto. }
    split_and!.
    + rewrite !enter_counts_app, !retry_notices_app.
      rewrite (retry_notices_plain _ Hout), (retry_notices_plain _ Hshown),
        (enter_counts_plain _ Hout), (enter_counts_plain _ Hshown), Hretry, Hk.
      rewrite length_seq. cbn. by rewrite length_seq, Nat.sub_0_r.
    + rewrite !successes_app, Hsucc, (successes_plain _ Hout), (successes_plain _ Hshown).
      destruct Hres as [-> | (v & v' & -> & ->)]; done.
    + intros v Hv.
      assert (last evs2 = Some EvSuccess) as Hl.
      { destruct Hres as [-> | (v1 & v' & _ & ->)]; eauto. }
      rewrite !app_assoc, last_app, Hl. done.
  - rewrite finish_verdict. intros [= <- <- <-].
    unfold success_notice, verdict. destruct (returncode p =? 0).
    + split_and!.
      * split_notices.
        by rewrite (retry_notices_plain _ Hout), (retry_notices_plain _ Hshown),
          (enter_counts_plain _ Hout), (enter_counts_plain _ Hshown).
      * split_notices.
        by rewrite (successes_plain _ Hout), (successes_plain _ Hshown).
      * intros v _. by rewrite !last_cons, !app_assoc, last_snoc.
    + split_and!; [| | done].
      * split_notices.
        by rewrite (retry_notices_plain _ Hout), (retry_notices_plain _ Hshown),
          (enter_counts_plain _ Hout), (enter_counts_plain _ Hshown).
      * split_notices.
        by rewrite (successes_plain _ Hout), (successes_plain _ Hshown).
Qed.

End Notices.

(** X10. Success is announced by a run exactly when it returns, once, and as
    the last thing shown: an attempt that is abandoned for a retry, or a run
    that raises, never shows the success notice. *)
Theorem success_notice_iff_return (h : host) (r : request) (s s' : state)
    (evs : list event) (res : outcome) :
  run h r s = Some (s', evs, res) →
  successes evs = (if res is Return _ then 1 else 0)%nat ∧
  (last evs = Some EvSuccess ↔ ∃ v, res = Return v).
Proof.
  intros Hrun. apply (run_n_notices h) in Hrun as (_ & Hsucc & Hend).
  split; [done |]. split.
  - intros Hl. apply last_success_counted in Hl. rewrite Hsucc in Hl.
    destruct res; [by eexists | lia].
  - intros [v ->]. by eapply Hend.
Qed.

Lemma success_notice_iff_return_witness :
  ∃ s' evs res,
    run (Demo.flaky 1) (Demo.call "azdata bdc status" true) Demo.fresh = Some (s', evs, res) ∧
    successes evs = (if res is Return _ then 1 else 0)%nat ∧
    (last evs = Some EvSuccess ↔ ∃ v, res = Return v).
Proof.
  destruct (run (Demo.flaky 1) (Demo.call "azdata bdc status" true) Demo.fresh)
    as [[[s' evs] res]|] eqn:Hrun; [| vm_compute in Hrun; discriminate Hrun].
  exists s', evs, res. split; [reflexivity |].
  exact (success_notice_iff_return (Demo.flaky 1) (Demo.call "azdata bdc status" true)
           Demo.fresh s' evs res Hrun).
Defined.

(** X11. The retry notices of a run carry consecutive counts starting at the
    run's [retry_count], one for every invocation but the last: each notice
    prints the count of the attempt it abandons. *)
Theorem retry_notices_are_consecutive (h : host) (r : request) (s s' : state)
    (evs : list event) (res : outcome) :
  run h r s = Some (s', evs, res) →
  retry_notices evs = seq (retry_count r) (length (enter_counts evs) - 1) ∧
  enter_counts evs = seq (retry_count r) (length (enter_counts evs)) ∧
  (1 ≤ length (enter_counts evs))%nat.
Proof.
  intros Hrun. pose proof (run_n_enters h _ _ _ _ _ _ Hrun) as (k & Hk & _).
  apply (run_n_notices h) in Hrun as (Hretry & _). split; [done |].
  rewrite Hk, length_seq. split; [done | lia].
Qed.

Lemma retry_notices_are_consecutive_witness :
  ∃ s' evs res,
    run Demo.failing (Demo.call "azdata bdc status" false) Demo.fresh = Some (s', evs, res) ∧
    retry_notices evs = seq 0 (length (enter_counts evs) - 1) ∧
    enter_counts evs = seq 0 (length (enter_counts evs)) ∧
    (1 ≤ length (enter_counts evs))%nat.
Proof.
  destruct (run Demo.failing (Demo.call "azdata bdc status" false) Demo.fresh)
    as [[[s' evs] res]|] eqn:Hrun; [| vm_compute in Hrun; discriminate Hrun].
  exists s', evs, res. split; [reflexivity |].
  exact (retry_notices_are_consecutive Demo.failing (Demo.call "azdata bdc status" false)
           Demo.fresh s' evs res Hrun).
Defined.

(** ** [run] and its cases *)

Section Cases.

Context (h : host).

(** Every result of [run] is a run by the rules. *)
Lemma run_n_runs fuel r s s' evs res :
  run_n fuel h r s = Some (s', evs, res) → runs h r s s' evs res.
Proof.
  revert r s s' evs res. induction fuel as [|fuel IH]; intros r s s' evs res; [done |].
  cbn [run_n].
  destruct (prologue h r s) as [s1 [e | [[|c0 args] ih]]] eqn:Hpro.
  - intros [= <- <- <-]. by constructor.
  - intros [= <- <- <-]. by econstructor.
  - destruct (which h c0) as [wb|] eqn:Hw.
    2:{ intros [= <- <- <-]. by econstructor. }
    destruct (popen h (popen_calls s1) (wb :: args)) as [p|] eqn:Hpo.
    2:{ intros [= <- <- <-]. by eapply runs_popen_raises. }
    destruct (no_output r) eqn:Hno.
    { rewrite finish_verdict. intros [= <- <- <-]. by eapply runs_unpiped. }
    destruct (pump_stdout r (readlines (stdout p)) EmptyString) as [out_evs output] eqn:Hout.
    cbn [spawned error_lists retry_lists].
    destruct (pump_stderr _ _ _ _) as [err_evs [hint|]] eqn:Herr.
    + destruct (run_n fuel h (retry_request r) (spawned s1)) as [[[s2 evs2] res2]|] eqn:Hrec;
        [| done].
      intros Heq.
      assert (s' = s2 ∧ res = res2
              ∧ evs = [EvEnter (retry_count r); EvStart (cmd r) wb; EvPopen (wb :: args) true]
                        ++ (pump_stdout r (readlines (stdout p)) EmptyString).1
                        ++ err_evs ++ evs2) as (-> & -> & ->).
      { rewrite Hout. pose proof (run_n_retry_outcome h _ _ _ _ res2 Hrec eq_refl) as Hsame.
        destruct res2; simplify_eq; by rewrite ?Hsame. }
      eapply runs_retry; eauto.
    + rewrite finish_verdict. intros [= <- <- <-].
      pose proof (runs_to_the_end h r s s1 c0 args ih wb p err_evs Hpro Hw Hpo Hno Herr) as H.
      by rewrite Hout in H.
Qed.

Lemma run_runs r s s' evs res :
  run h r s = Some (s', evs, res) → runs h r s s' evs res.
Proof. apply run_n_runs. Qed.

End Cases.

(** ** The prologue *)

Section Prologue.

Context (h : host).

(** A command line belongs to one tool family at most. *)
Lemma prefix_exclusive c :
  (startswith c "python " = true →
   startswith c "kubectl " = false ∧ startswith c "azdata " = false) ∧
  (startswith c "kubectl " = true → startswith c "azdata " = false).
Proof.
  destruct c as [|a c]; [done |]. cbn [startswith]. split.
  - destruct (Ascii.eqb_spec "p"%char a) as [<- | _]; [done | done].
  - destruct (Ascii.eqb_spec "k"%char a) as [<- | _]; [done | done].
Qed.

(** A prologue that gets through has appended the hints of the tool family,
    once, to the two lists of the call, and has started nothing. *)
Lemma prologue_inr r s s1 x :
  prologue h r s = (s1, inr x) →
  error_lists s1 =
    match family_hints h (cmd r) with
    | Some hs => <[error_hints r := (error_lists s !!! error_hints r) ++ hs.1.2]> (error_lists s)
    | None => error_lists s
    end ∧
  retry_lists s1 =
    match family_hints h (cmd r) with
    | Some hs => <[retry_hints r := (retry_lists s !!! retry_hints r) ++ hs.1.1]> (retry_lists s)
    | None => retry_lists s
    end.
Proof.
  unfold prologue, family_hints.
  destruct (prefix_exclusive (cmd r)) as [Hpy Hku].
  destruct (shlex_split h (cmd r)) as [cmd_actual|]; [| done].
  destruct (startswith (cmd r) "python ").
  - destruct (Hpy eq_refl) as [-> ->].
    destruct cmd_actual as [|c0 args]; [done |].
    destruct (python_hints h) as [hs|]; [| done].
    intros [= <- _]. unfold set_locale. by destruct (_ && _).
  - destruct (startswith (cmd r) "kubectl ").
    + rewrite (Hku eq_refl). by intros [= <- _].
    + destruct (startswith (cmd r) "azdata "); by intros [= <- _].
Qed.

(** A prologue that raises has left the lists as they were. *)
Lemma prologue_inl r s s1 e :
  prologue h r s = (s1, inl e) →
  error_lists s1 = error_lists s ∧ retry_lists s1 = retry_lists s.
Proof.
  unfold prologue.
  destruct (shlex_split h (cmd r)) as [cmd_actual|]; [| by intros [= <- _]].
  destruct (startswith (cmd r) "python ").
  - destruct cmd_actual as [|c0 args]; [by intros [= <- _] |].
    destruct (python_hints h) as [hs|].
    + by destruct (startswith (cmd r) "kubectl "), (startswith (cmd r) "azdata ").
    + intros [= <- _]. unfold set_locale. by destruct (_ && _).
  - by destruct (startswith (cmd r) "kubectl "), (startswith (cmd r) "azdata ").
Qed.

(** The tokens, the install hint and the exception of the prologue depend on
    the command line only. *)
Lemma prologue_result r r' s s' :
  cmd r = cmd r' → (prologue h r s).2 = (prologue h r' s').2.
Proof.
  intros Hcmd. unfold prologue. rewrite <- Hcmd.
  destruct (shlex_split h (cmd r)) as [cmd_actual|]; [| done].
  destruct (startswith (cmd r) "python ").
  - destruct cmd_actual as [|c0 args]; [done |].
    destruct (python_hints h) as [hs|]; [| done].
    by destruct (startswith (cmd r) "kubectl "), (startswith (cmd r) "azdata ").
  - by destruct (startswith (cmd r) "kubectl "), (startswith (cmd r) "azdata ").
Qed.

Lemma prologue_retry r s s1 x s2 :
  prologue h r s = (s1, inr x) →
  ∃ s3, prologue h (retry_request r) s2 = (s3, inr x).
Proof.
  intros Hpro. pose proof (prologue_result (retry_request r) r s2 s eq_refl) as H.
  rewrite Hpro in H. destruct (prologue h (retry_request r) s2) as [s3 y].
  cbn [snd] in H. subst y. by exists s3.
Qed.

End Prologue.

(** ** The hint lists after a run *)

Section Lists.

Context (h : host).

Lemma copies_S {A} n (l : list A) : copies (S n) l = l ++ copies n l.
Proof. done. Qed.

Lemma copies_1 {A} (l : list A) : copies 1 l = l.
Proof. unfold copies. cbn. apply app_nil_r. Qed.

Lemma enter_counts_success_notice p : enter_counts (success_notice p) = [].
Proof. unfold success_notice. by destruct (returncode p =? 0). Qed.

(** The invocations of a run, first one first. *)
Lemma runs_enter_counts r s s' evs res :
  runs h r s s' evs res →
  ∃ rest, enter_counts evs = retry_count r :: rest.
Proof.
  destruct 1; split_notices; eauto.
Qed.

(** In one attempt that reaches its end or raises, one invocation only. *)
Ltac one_enter :=
  split_notices;
  rewrite ?enter_counts_suggest_install, ?enter_counts_success_notice,
    ?enter_counts_pump_stdout;
  try match goal with
      | H : pump_stderr ?rc ?et ?rt ?ls = (?evs, _) |- _ =>
          let E := fresh in
          pose proof (enter_counts_pump_stderr rc et rt ls) as E;
          rewrite H in E; cbn [fst] in E; rewrite ?E
      end.

Lemma runs_lists r s s' evs res hs x :
  runs h r s s' evs res →
  family_hints h (cmd r) = Some hs →
  (prologue h r s).2 = inr x →
  retry_lists s' =
    <[retry_hints r := (retry_lists s !!! retry_hints r)
                         ++ copies (length (enter_counts evs)) hs.1.1]> (retry_lists s) ∧
  error_lists s' =
    <[error_hints r := (error_lists s !!! error_hints r)
                         ++ copies (length (enter_counts evs)) hs.1.2]> (error_lists s).
Proof.
  intros Hruns. revert x.
  induction Hruns as [r s s1 e Hpro | r s s1 ih Hpro | r s s1 c0 args ih Hpro Hw
                     | r s s1 c0 args ih wb Hpro Hw Hpo | r s s1 c0 args ih wb p Hpro Hw Hpo Hno
                     | r s s1 c0 args ih wb p err_evs Hpro Hw Hpo Hno Herr
                     | r s s1 c0 args ih wb p err_evs hint s' evs res Hpro Hw Hpo Hno Herr
                         Hrec IH];
    intros x Hfam Hok.
  1: by rewrite Hpro in Hok.
  1-5: apply prologue_inr in Hpro as [He Hr]; rewrite Hfam in He, Hr;
       one_enter; cbn [length spawned error_lists retry_lists];
       by rewrite !copies_1.
  pose proof Hpro as Hpro'. apply prologue_inr in Hpro' as [He Hr]. rewrite Hfam in He, Hr.
  destruct (prologue_retry h r s s1 _ (spawned s1) Hpro) as [s3 Hpro3].
  destruct (IH (c0 :: args, ih)) as [IHr IHe]; [done | by rewrite Hpro3 |].
  cbn [retry_request retry_hints error_hints spawned retry_lists error_lists] in IHr, IHe.
  one_enter. cbn [length app].
  rewrite IHr, IHe, Hr, He, !lookup_total_insert_eq, !insert_insert_eq, copies_S.
  by rewrite <- !app_assoc.
Qed.

(** Without a tool family the prologue changes nothing. *)
Lemma prologue_no_family r s :
  startswith (cmd r) "python " = false →
  startswith (cmd r) "kubectl " = false →
  startswith (cmd r) "azdata " = false →
  (prologue h r s).1 = s.
Proof.
  intros Hpy Hku Haz. unfold prologue. rewrite Hpy, Hku, Haz.
  by destruct (shlex_split h (cmd r)).
Qed.

Lemma runs_no_family r s s' evs res :
  runs h r s s' evs res →
  startswith (cmd r) "python " = false →
  startswith (cmd r) "kubectl " = false →
  startswith (cmd r) "azdata " = false →
  error_lists s' = error_lists s ∧ retry_lists s' = retry_lists s ∧ environ s' = environ s.
Proof.
  induction 1 as [r s s1 e Hpro | r s s1 ih Hpro | r s s1 c0 args ih Hpro Hw
                 | r s s1 c0 args ih wb Hpro Hw Hpo | r s s1 c0 args ih wb p Hpro Hw Hpo Hno
                 | r s s1 c0 args ih wb p err_evs Hpro Hw Hpo Hno Herr
                 | r s s1 c0 args ih wb p err_evs hint s' evs res Hpro Hw Hpo Hno Herr
                     Hrec IH];
    intros Hpy Hku Haz;
    pose proof (prologue_no_family r s Hpy Hku Haz) as Hsame;
    rewrite Hpro in Hsame; cbn [fst] in Hsame; subst s1; try done.
  by apply IH.
Qed.

(** The exceptions of the prologue. *)
Lemma prologue_exn r s s1 e :
  prologue h r s = (s1, inl e) →
  e = ValueError ∨ e = IndexError ∨ e = NameError "python_hints".
Proof.
  unfold prologue.
  destruct (shlex_split h (cmd r)) as [cmd_actual|]; [| intros [= _ <-]; eauto].
  destruct (startswith (cmd r) "python ").
  - destruct cmd_actual as [|c0 args]; [intros [= _ <-]; eauto |].
    destruct (python_hints h) as [hs|]; [| intros [= _ <-]; eauto].
    by destruct (startswith (cmd r) "kubectl "), (startswith (cmd r) "azdata ").
  - by destruct (startswith (cmd r) "kubectl "), (startswith (cmd r) "azdata ").
Qed.

Lemma started_app a b : started (a ++ b) = started a ++ started b.
Proof. apply omap_app. Qed.

Lemma started_plain evs : Forall plain evs → started evs = [].
Proof. apply omap_plain. by intros []. Qed.

Lemma started_success_notice p : started (success_notice p) = [].
Proof. unfold success_notice. by destruct (returncode p =? 0). Qed.

Lemma started_pump_stderr rc et rt lines : started (pump_stderr rc et rt lines).1 = [].
Proof.
  destruct (pump_stderr rc et rt lines) as [evs retry] eqn:E.
  apply pump_stderr_shape in E as (shown & Hshown & ->). cbn [fst].
  rewrite started_app, (started_plain _ Hshown). by destruct retry.
Qed.

Lemma verdict_output r p a b :
  (return_output r = true → a = b) → verdict r p a = verdict r p b.
Proof.
  intros H. unfold verdict. destruct (returncode p =? 0); [| done].
  destruct (return_output r); [by rewrite H | done].
Qed.

(** What a run returns or raises is the verdict on the last process it
    started: the process its own last call of [Popen] started. *)
Lemma runs_last_started r s s' evs res :
  runs h r s s' evs res →
  match res with
  | Return _ | Raise (SystemExit _ _) =>
      ∃ p, last_started h r s s' evs p ∧
           res = verdict r p (if no_output r then EmptyString else stdout p)
  | Raise _ => True
  end.
Proof.
  induction 1 as [r s s1 e Hpro | r s s1 ih Hpro | r s s1 c0 args ih Hpro Hw
                 | r s s1 c0 args ih wb Hpro Hw Hpo | r s s1 c0 args ih wb p Hpro Hw Hpo Hno
                 | r s s1 c0 args ih wb p err_evs Hpro Hw Hpo Hno Herr
                 | r s s1 c0 args ih wb p err_evs hint s' evs res Hpro Hw Hpo Hno Herr
                     Hrec IH]; try done.
  - by destruct (prologue_exn _ _ _ _ Hpro) as [-> | [-> | ->]].
  - assert (∃ q, last_started h r s (spawned s1)
                   ([EvEnter (retry_count r); EvStart (cmd r) wb; EvPopen (wb :: args) false]
                      ++ success_notice p) q
                 ∧ verdict r p EmptyString
                   = verdict r q (if no_output r then EmptyString else stdout q)) as Hq.
    { exists p. split; [| by rewrite Hno].
      exists c0, args, ih, wb. rewrite Hpro. split_and!; [done | done | | |].
      - rewrite started_app, started_success_notice. done.
      - cbn [spawned popen_calls]. apply prologue_popen_calls in Hpro. lia.
      - cbn [spawned popen_calls]. by rewrite Nat.sub_1_r. }
    unfold verdict at 1. by destruct (returncode p =? 0).
  - assert (∃ q, last_started h r s (spawned s1)
                   ([EvEnter (retry_count r); EvStart (cmd r) wb; EvPopen (wb :: args) true]
                      ++ (pump_stdout r (readlines (stdout p)) EmptyString).1
                      ++ err_evs ++ success_notice p) q
                 ∧ verdict r p (pump_stdout r (readlines (stdout p)) EmptyString).2
                   = verdict r q (if no_output r then EmptyString else stdout q)) as Hq.
    { exists p. split.
      - exists c0, args, ih, wb. rewrite Hpro. split_and!; [done | done | | |].
        + pose proof (started_pump_stderr (retry_count r) (error_lists s1 !!! error_hints r)
                        (retry_lists s1 !!! retry_hints r) (readlines (stderr p))) as Herr'.
          rewrite Herr in Herr'. cbn [fst] in Herr'.
          rewrite !started_app, (started_plain _ (pump_stdout_plain _ _ _)), Herr',
            started_success_notice. done.
        + cbn [spawned popen_calls]. apply prologue_popen_calls in Hpro. lia.
        + cbn [spawned popen_calls]. by rewrite Nat.sub_1_r.
      - rewrite Hno. apply verdict_output. intros Hret.
        rewrite pump_stdout_capture by done. cbn [snd].
        by rewrite append_nil_l, readlines_join. }
    unfold verdict at 1. by destruct (returncode p =? 0).
  - assert (∀ q, last_started h (retry_request r) (spawned s1) s' evs q →
                 last_started h r s s'
                   ([EvEnter (retry_count r); EvStart (cmd r) wb; EvPopen (wb :: args) true]
                      ++ (pump_stdout r (readlines (stdout p)) EmptyString).1
                      ++ err_evs ++ evs) q) as Hup.
    { intros q (c1 & args1 & ih1 & wb1 & Hpro1 & Hw1 & Hlast & Hcalls & Hq).
      rewrite (prologue_result h (retry_request r) r (spawned s1) s eq_refl), Hpro in Hpro1.
      injection Hpro1 as <- <- <-. rewrite Hw in Hw1. injection Hw1 as <-.
      exists c0, args, ih, wb. rewrite Hpro. split_and!; [done | done | | | done].
      - pose proof (started_pump_stderr (retry_count r) (error_lists s1 !!! error_hints r)
                      (retry_lists s1 !!! retry_hints r) (readlines (stderr p))) as Herr'.
        rewrite Herr in Herr'. cbn [fst] in Herr'.
        rewrite !started_app, (started_plain _ (pump_stdout_plain _ _ _)), Herr'.
        cbn. by rewrite last_cons, Hlast.
      - cbn [spawned popen_calls] in Hcalls. apply prologue_popen_calls in Hpro. lia. }
    cbn [retry_request no_output] in IH. rewrite Hno.
    destruct res as [v | []]; try done;
      destruct IH as (q & Hq & Hres); exists q; (split; [by apply Hup | done]).
Qed.

End Lists.

(** X6. Every invocation of a run of a python, kubectl or azdata command
    appends the hints of that family once more to the two lists of the call:
    after a run with [n] invocations the retry list and the remediation list
    are the lists the caller passed followed by [n] copies of the family's
    hints, and no other list has changed. *)
Theorem hint_lists_grow_with_every_invocation (h : host) (r : request) (s s1 s' : state)
    (x : list string * option string) (hs : hints) (evs : list event) (res : outcome) :
  family_hints h (cmd r) = Some hs →
  prologue h r s = (s1, inr x) →
  run h r s = Some (s', evs, res) →
  retry_lists s' =
    <[retry_hints r := (retry_lists s !!! retry_hints r)
                         ++ copies (length (enter_counts evs)) hs.1.1]> (retry_lists s) ∧
  error_lists s' =
    <[error_hints r := (error_lists s !!! error_hints r)
                         ++ copies (length (enter_counts evs)) hs.1.2]> (error_lists s).
Proof.
  intros Hfam Hpro Hrun. eapply runs_lists; [by apply run_runs | done | by rewrite Hpro].
Qed.

Lemma hint_lists_grow_with_every_invocation_witness :
  let r := Demo.call "azdata bdc status" true in
  ∃ s' evs res,
    run (Demo.flaky 1) r Demo.fresh = Some (s', evs, res) ∧
    retry_lists s' =
      <[retry_hints r := (retry_lists Demo.fresh !!! retry_hints r)
                           ++ copies (length (enter_counts evs)) azdata_hints.1.1]>
        (retry_lists Demo.fresh) ∧
    error_lists s' =
      <[error_hints r := (error_lists Demo.fresh !!! error_hints r)
                           ++ copies (length (enter_counts evs)) azdata_hints.1.2]>
        (error_lists Demo.fresh).
Proof.
  intros r.
  destruct (run (Demo.flaky 1) r Demo.fresh)
    as [[[s' evs] res]|] eqn:Hrun; [| vm_compute in Hrun; discriminate Hrun].
  exists s', evs, res. split; [reflexivity |].
  exact (hint_lists_grow_with_every_invocation (Demo.flaky 1) r Demo.fresh
           (add_hints r azdata_hints Demo.fresh) s'
           (["azdata"; "bdc"; "status"], Some azdata_hints.2) azdata_hints evs res
           eq_refl eq_refl Hrun).
Defined.

(** X7. A run of a command of no tool family leaves the store of hint lists
    and the environment exactly as they were, whatever happens to the
    command: the hints in effect are those the lists held at the call. *)
Theorem other_commands_leave_lists_alone (h : host) (r : request) (s s' : state)
    (evs : list event) (res : outcome) :
  startswith (cmd r) "python " = false →
  startswith (cmd r) "kubectl " = false →
  startswith (cmd r) "azdata " = false →
  run h r s = Some (s', evs, res) →
  error_lists s' = error_lists s ∧ retry_lists s' = retry_lists s ∧ environ s' = environ s.
Proof.
  intros Hpy Hku Haz Hrun. eapply runs_no_family; [by apply run_runs | done..].
Qed.

Lemma other_commands_leave_lists_alone_witness :
  ∃ s' evs res,
    run Demo.busy_port (Demo.call "tool sync" false) Demo.fresh = Some (s', evs, res) ∧
    error_lists s' = error_lists Demo.fresh ∧ retry_lists s' = retry_lists Demo.fresh
    ∧ environ s' = environ Demo.fresh.
Proof.
  destruct (run Demo.busy_port (Demo.call "tool sync" false) Demo.fresh)
    as [[[s' evs] res]|] eqn:Hrun; [| vm_compute in Hrun; discriminate Hrun].
  exists s', evs, res. split; [reflexivity |].
  exact (other_commands_leave_lists_alone Demo.busy_port (Demo.call "tool sync" false)
           Demo.fresh s' evs res eq_refl eq_refl eq_refl Hrun).
Defined.

(** X3. The last process a run started decides its outcome.  A run that
    returns, or that raises [SystemExit], has made a call of [Popen] of its
    own; the last one was given the executable its command line resolves to,
    with the other tokens, and started a process; that process exited with 0
    where the run returns, and with the code that [SystemExit] carries, which
    is not 0, along with the run's own command line, where it raises.  The
    exit code of an attempt that was abandoned for a retry is never reported. *)
Theorem outcome_is_of_the_last_process (h : host) (r : request) (s s' : state)
    (evs : list event) (res : outcome) :
  run h r s = Some (s', evs, res) →
  match res with
  | Return _ => ∃ p, last_started h r s s' evs p ∧ returncode p = 0
  | Raise (SystemExit c code) =>
      ∃ p, last_started h r s s' evs p ∧ c = cmd r ∧ code = returncode p ∧ code ≠ 0
  | Raise _ => True
  end.
Proof.
  intros Hrun. apply run_runs, runs_last_started in Hrun.
  destruct res as [v | []]; try done; destruct Hrun as (p & Hp & Hres); exists p;
    (split; [done |]); unfold verdict in Hres;
    destruct (Z.eqb_spec (returncode p) 0); by simplify_eq.
Qed.

Lemma outcome_is_of_the_last_process_witness :
  ∃ s' evs res,
    run Demo.failing (Demo.call "azdata bdc status" false) Demo.fresh = Some (s', evs, res) ∧
    match res with
    | Return _ =>
        ∃ p, last_started Demo.failing (Demo.call "azdata bdc status" false) Demo.fresh
               s' evs p ∧ returncode p = 0
    | Raise (SystemExit c code) =>
        ∃ p, last_started Demo.failing (Demo.call "azdata bdc status" false) Demo.fresh
               s' evs p ∧ c = "azdata bdc status" ∧ code = returncode p ∧ code ≠ 0
    | Raise _ => True
    end.
Proof.
  destruct (run Demo.failing (Demo.call "azdata bdc status" false) Demo.fresh)
    as [[[s' evs] res]|] eqn:Hrun; [| vm_compute in Hrun; discriminate Hrun].
  exists s', evs, res. split; [reflexivity |].
  exact (outcome_is_of_the_last_process Demo.failing (Demo.call "azdata bdc status" false)
           Demo.fresh s' evs res Hrun).
Defined.

(** ** One attempt *)

Section OneAttempt.

Context (h : host).


Lemma scan_retry_hints_fires rc line rt :
  (rc < max_retries)%nat →
  Exists (λ pat, Substring pat line) rt →
  is_Some (scan_retry_hints rc line rt).
Proof.
  intros Hrc. induction 1 as [pat rt Hpat | pat rt _ IH]; cbn [scan_retry_hints].
  - rewrite found_decide, bool_decide_eq_true_2 by done.
    destruct (Nat.ltb_spec rc max_retries); [by eexists | lia].
  - by destruct (_ && _).
Qed.

(** With attempts left, a line that holds a retry hint makes the loop leave. *)
Lemma pump_stderr_fires rc et rt lines :
  (rc < max_retries)%nat →
  Forall (λ l, l ≠ EmptyString) lines →
  Exists (λ l, Exists (λ pat, Substring pat l) rt) lines →
  ∃ evs hint, pump_stderr rc et rt lines = (evs, Some hint).
Proof.
  intros Hrc Hne Hex. induction Hex as [l lines Hl | l lines _ IH]; cbn [pump_stderr];
    apply Forall_cons in Hne as [Hl' Hne]; apply String.eqb_neq in Hl' as ->.
  - destruct (scan_retry_hints_fires rc l rt Hrc Hl) as [hint ->]. by eexists _, _.
  - destruct (scan_retry_hints rc l rt) as [hint|]; [by eexists _, _ |].
    destruct (IH Hne) as (evs & hint & ->). by eexists _, _.
Qed.

Lemma pump_stdout_retry_request r lines acc :
  pump_stdout (retry_request r) lines acc = pump_stdout r lines acc.
Proof.
  revert acc. induction lines as [|l lines IH]; intros acc; [done |].
  cbn [pump_stdout retry_request return_output cmd]. by rewrite !IH.
Qed.

Lemma pump_stdout_text r text :
  pump_stdout r (readlines text) EmptyString =
  (if return_output r then []
   else flat_map (λ line, if startswith (cmd r) "azdata notebook run" then hyperlink line
                          else [EvPrint line]) (readlines text),
   if return_output r then text else EmptyString).
Proof.
  destruct (return_output r) eqn:Hret.
  - rewrite pump_stdout_capture by done. by rewrite append_nil_l, readlines_join.
  - by rewrite pump_stdout_stream.
Qed.

End OneAttempt.



(** X2. With [no_output] the streams of the process are not read: one process
    is started, unpiped, nothing it writes is echoed or classified, no retry
    is made whatever the retry list holds, and the exit code alone decides;
    with [return_output] the text returned is empty. *)
Theorem unpiped_process_is_never_retried (h : host) (r : request) (s s1 : state)
    (c0 : string) (args : list string) (ih : option string) (wb : string) (p : process) :
  no_output r = true →
  prologue h r s = (s1, inr (c0 :: args, ih)) →
  which h c0 = Some wb →
  popen h (popen_calls s1) (wb :: args) = Some p →
  run h r s =
  Some (spawned s1,
        [EvEnter (retry_count r); EvStart (cmd r) wb; EvPopen (wb :: args) false]
          ++ success_notice p,
        if returncode p =? 0 then Return (if return_output r then Some EmptyString else None)
        else Raise (SystemExit (cmd r) (returncode p))).
Proof.
  intros Hno Hpro Hw Hpo. unfold run. cbn [run_n].
  by rewrite Hpro, Hw, Hpo, Hno, finish_verdict.
Qed.

Lemma unpiped_process_is_never_retried_witness :
  let r := {| cmd := "azdata bdc hdfs cp"; return_output := true; no_output := true;
              error_hints := default_error_hints; retry_hints := default_retry_hints;
              retry_count := 0 |} in
  run (Demo.flaky 0) r Demo.fresh =
  Some (spawned (add_hints r azdata_hints Demo.fresh),
        [EvEnter 0; EvStart "azdata bdc hdfs cp" "/bin/azdata";
         EvPopen ["/bin/azdata"; "bdc"; "hdfs"; "cp"] false; EvSuccess],
        Return (Some EmptyString)).
Proof.
  intros r.
  apply (unpiped_process_is_never_retried (Demo.flaky 0) r Demo.fresh
           (add_hints r azdata_hints Demo.fresh) "azdata" ["bdc"; "hdfs"; "cp"]
           (Some azdata_hints.2) "/bin/azdata"
           {| stdout := Demo.line "connecting";
              stderr := Demo.line "ERROR: Endpoint livy does not exist";
              returncode := 0 |}); reflexivity.
Defined.

(** X4. A command line that cannot be tokenised, or that holds no token, ends
    the call before anything is changed or shown: [ValueError] from the
    tokeniser goes to the caller, an empty list of tokens raises [IndexError],
    and the state is as it was (for an empty list of tokens, where the command
    line is not of the kubectl or azdata family). *)
Theorem no_token_no_effect (h : host) (r : request) (s : state) :
  (shlex_split h (cmd r) = None →
   run h r s = Some (s, [EvEnter (retry_count r)], Raise ValueError)) ∧
  (shlex_split h (cmd r) = Some [] →
   startswith (cmd r) "kubectl " = false →
   startswith (cmd r) "azdata " = false →
   run h r s = Some (s, [EvEnter (retry_count r)], Raise IndexError)).
Proof.
  split.
  - intros Hsplit. unfold run. cbn [run_n]. unfold prologue. by rewrite Hsplit.
  - intros Hsplit Hku Haz. unfold run. cbn [run_n]. unfold prologue.
    rewrite Hsplit, Hku, Haz. by destruct (startswith (cmd r) "python ").
Qed.

Lemma no_token_no_effect_witness :
  run (Demo.quiet EmptyString EmptyString) (Demo.call "   " true) Demo.fresh =
  Some (Demo.fresh, [EvEnter 0], Raise IndexError).
Proof.
  apply (proj2 (no_token_no_effect (Demo.quiet EmptyString EmptyString)
                  (Demo.call "   " true) Demo.fresh)); reflexivity.
Defined.

(** X12. Where [Popen] itself does not find the file of an executable that
    was found on the search path, the install hint of the tool family is shown
    after the start notice and [FileNotFoundError] is raised with the path
    that was resolved, not the name in the command line; nothing is retried. *)
Theorem popen_not_found_is_reported (h : host) (r : request) (s s1 : state)
    (c0 : string) (args : list string) (ih : option string) (wb : string) :
  prologue h r s = (s1, inr (c0 :: args, ih)) →
  which h c0 = Some wb →
  popen h (popen_calls s1) (wb :: args) = None →
  run h r s =
  Some (spawned s1,
        [EvEnter (retry_count r); EvStart (cmd r) wb] ++ suggest_install ih,
        Raise (FileNotFoundError wb)).
Proof.
  intros Hpro Hw Hpo. unfold run. cbn [run_n]. by rewrite Hpro, Hw, Hpo.
Qed.

Lemma popen_not_found_is_reported_witness :
  let r := Demo.call "azdata bdc status" true in
  run Scenes.broken r Demo.fresh =
  Some (spawned (add_hints r azdata_hints Demo.fresh),
        [EvEnter 0; EvStart "azdata bdc status" "/bin/azdata";
         EvDisplay "SUGGEST: Use [SOP055 - Install azdata command line interface](../install/sop055-install-azdata.ipynb)' to resolve this issue."],
        Raise (FileNotFoundError "/bin/azdata")).
Proof.
  intros r.
  apply (popen_not_found_is_reported Scenes.broken r Demo.fresh
           (add_hints r azdata_hints Demo.fresh) "azdata" ["bdc"; "status"]
           (Some azdata_hints.2) "/bin/azdata"); reflexivity.
Defined.

(** ** A failure that does not go away *)

Section Exhaustion.

Context (h : host).

Lemma verdict_retry_request r p output :
  verdict (retry_request r) p output = verdict r p output.
Proof. done. Qed.

Lemma verdict_handed_over r p output :
  match verdict r p output with
  | Return v => Return (if return_output r then v else None)
  | Raise e => Raise e
  end = verdict r p output.
Proof. unfold verdict. destruct (returncode p =? 0); [| done]. by destruct (return_output r). Qed.

(** A process that holds a retry hint on standard error at every attempt is
    started once for every attempt there is, and the last attempt decides. *)
Lemma run_n_exhausts d : ∀ r s s1 c0 args ih wb p,
  (max_retries - retry_count r = d)%nat →
  (retry_count r ≤ max_retries)%nat →
  no_output r = false →
  prologue h r s = (s1, inr (c0 :: args, ih)) →
  which h c0 = Some wb →
  (∀ n, popen h n (wb :: args) = Some p) →
  Exists (λ l, Exists (λ pat, Substring pat l) (retry_lists s1 !!! retry_hints r))
    (readlines (stderr p)) →
  ∃ s' evs,
    run_n (S d) h r s
    = Some (s', evs, verdict r p (pump_stdout r (readlines (stdout p)) EmptyString).2) ∧
    enter_counts evs = seq (retry_count r) (S d) ∧
    popen_calls s' = (popen_calls s + S d)%nat.
Proof.
  induction d as [|d IH]; intros r s s1 c0 args ih wb p Hd Hrc Hno Hpro Hw Hpo Hex.
  - erewrite run_n_finish_step; [| done.. |].
    2:{ apply pump_stderr_exhausted; [lia | apply readlines_nonempty]. }
    pose proof (enter_counts_pump_stdout r (readlines (stdout p)) EmptyString) as Hout.
    pose proof (enter_counts_pump_stderr (retry_count r) (error_lists s1 !!! error_hints r)
                  (retry_lists s1 !!! retry_hints r) (readlines (stderr p))) as Herr.
    rewrite pump_stderr_exhausted in Herr by (lia || apply readlines_nonempty).
    destruct (pump_stdout r (readlines (stdout p)) EmptyString) as [out_evs output].
    rewrite finish_verdict. cbn [fst snd] in *. eexists _, _. split; [done |]. split.
    + split_notices. by rewrite Hout, Herr, enter_counts_success_notice.
    + cbn [spawned popen_calls]. apply prologue_popen_calls in Hpro. lia.
  - destruct (pump_stderr_fires (retry_count r) (error_lists s1 !!! error_hints r)
                (retry_lists s1 !!! retry_hints r) (readlines (stderr p)))
      as (err_evs & hint & Herr); [lia | apply readlines_nonempty | done |].
    erewrite run_n_retry_step by done.
    destruct (prologue_retry h r s s1 _ (spawned s1) Hpro) as [s3 Hpro3].
    destruct (IH (retry_request r) (spawned s1) s3 c0 args ih wb p)
      as (s' & evs2 & Hrec & Henter & Hcalls);
      [cbn [retry_request retry_count]; lia.. | done | done | done | done | |].
    { apply prologue_inr in Hpro3 as [_ Hlist].
      cbn [retry_request retry_hints cmd spawned retry_lists] in *. rewrite Hlist.
      destruct (family_hints h (cmd r)) as [hs|]; [| done].
      rewrite lookup_total_insert_eq.
      eapply Exists_impl; [exact Hex |]. intros l Hl. apply Exists_app. by left. }
    rewrite Hrec, pump_stdout_retry_request, verdict_retry_request, verdict_handed_over.
    eexists _, _. split; [done |]. split.
    + pose proof (enter_counts_pump_stdout r (readlines (stdout p)) EmptyString) as Hout.
      pose proof (enter_counts_pump_stderr (retry_count r) (error_lists s1 !!! error_hints r)
                    (retry_lists s1 !!! retry_hints r) (readlines (stderr p))) as Herr'.
      rewrite Herr in Herr'. cbn [fst] in Herr'.
      split_notices. by rewrite Hout, Herr', Henter.
    + rewrite Hcalls. cbn [spawned popen_calls]. apply prologue_popen_calls in Hpro. lia.
Qed.

End Exhaustion.

(** X5. A command whose process shows a retry hint on standard error at every
    attempt is started [max_retries - retry_count + 1] times, no more and no
    fewer: six times from [retry_count = 0].  The exit code of the last
    attempt then decides: not 0, the run raises [SystemExit]. *)
Theorem lasting_failure_uses_every_attempt (h : host) (r : request) (s s1 : state)
    (c0 : string) (args : list string) (ih : option string) (wb : string) (p : process) :
  (retry_count r ≤ max_retries)%nat →
  no_output r = false →
  prologue h r s = (s1, inr (c0 :: args, ih)) →
  which h c0 = Some wb →
  (∀ n, popen h n (wb :: args) = Some p) →
  Exists (λ l, Exists (λ pat, Substring pat l) (retry_lists s1 !!! retry_hints r))
    (readlines (stderr p)) →
  ∃ s' evs,
    run h r s
    = Some (s', evs, verdict r p (if return_output r then stdout p else EmptyString)) ∧
    enter_counts evs = seq (retry_count r) (S (max_retries - retry_count r)) ∧
    popen_calls s' = (popen_calls s + S (max_retries - retry_count r))%nat.
Proof.
  intros Hrc Hno Hpro Hw Hpo Hex.
  destruct (run_n_exhausts h (max_retries - retry_count r) r s s1 c0 args ih wb p)
    as (s' & evs & Hrun & Henter & Hcalls); try done.
  rewrite pump_stdout_text in Hrun. by exists s', evs.
Qed.

Lemma lasting_failure_uses_every_attempt_witness :
  ∃ s' evs,
    run Demo.failing (Demo.call "azdata bdc status" false) Demo.fresh
    = Some (s', evs, Raise (SystemExit "azdata bdc status" 1)) ∧
    enter_counts evs = [0; 1; 2; 3; 4; 5]%nat ∧
    popen_calls s' = 6%nat.
Proof.
  apply (lasting_failure_uses_every_attempt Demo.failing
           (Demo.call "azdata bdc status" false) Demo.fresh
           (add_hints (Demo.call "azdata bdc status" false) azdata_hints Demo.fresh)
           "azdata" ["bdc"; "status"] (Some azdata_hints.2) "/bin/azdata"
           {| stdout := EmptyString;
              stderr := Demo.line "ERROR: Endpoint livy does not exist"
                        +:+ Demo.line "giving up";
              returncode := 1 |}).
  - vm_compute. lia.
  - reflexivity.
  - reflexivity.
  - reflexivity.
  - intros n. reflexivity.
  - apply (bool_decide_unpack _). vm_compute. exact I.
Defined.

(** ** The cell of the three calls *)

Section Cell.

Context (d : decoders) (h : host).

Lemma family_hints_secret namespace field :
  family_hints h (secret_command namespace field) = Some kubectl_hints.
Proof. reflexivity. Qed.

Lemma family_hints_endpoint : family_hints h endpoint_command = Some azdata_hints.
Proof. reflexivity. Qed.

Lemma copies_add {A} n m (l : list A) : copies (n + m) l = copies n l ++ copies m l.
Proof.
  induction n as [|n IH]; [done |]. cbn [Nat.add]. by rewrite !copies_S, IH, app_assoc.
Qed.

(** A run that returns has got through its prologue. *)
Lemma runs_return_prologue r s s' evs v :
  runs h r s s' evs (Return v) → ∃ x, (prologue h r s).2 = inr x.
Proof.
  inversion 1; subst;
    match goal with H : prologue h r s = _ |- _ => rewrite H end; by eexists.
Qed.

(** What one successful call of the cell leaves in the default lists. *)
Lemma capture_lists c hs s s' evs v :
  family_hints h c = Some hs →
  run h (capture c) s = Some (s', evs, Return v) →
  (1 ≤ length (enter_counts evs))%nat ∧
  retry_lists s' !!! default_retry_hints =
    (retry_lists s !!! default_retry_hints) ++ copies (length (enter_counts evs)) hs.1.1 ∧
  error_lists s' !!! default_error_hints =
    (error_lists s !!! default_error_hints) ++ copies (length (enter_counts evs)) hs.1.2.
Proof.
  intros Hfam Hrun. apply run_runs in Hrun.
  destruct (runs_return_prologue _ _ _ _ _ Hrun) as [x Hx].
  destruct (runs_enter_counts h _ _ _ _ _ Hrun) as [rest Hrest].
  destruct (runs_lists h _ _ _ _ _ hs x Hrun Hfam Hx) as [Hr He].
  cbn [capture retry_hints error_hints] in Hr, He.
  rewrite Hr, He, !lookup_total_insert_eq, Hrest. cbn [length]. split; [lia | done].
Qed.

(** One call of the cell starts at most six processes. *)
Lemma fetch_bound c decode s :
  ∃ s' evs out,
    fetch h c decode s = Some (s', evs, out) ∧
    (popen_calls s' ≤ popen_calls s + 6)%nat ∧
    (length (enter_counts evs) ≤ 6)%nat.
Proof.
  unfold fetch.
  destruct (run_n_total h (S (max_retries - retry_count (capture c))) (capture c) s)
    as [[[s' evs] res] Hrun]; [lia |].
  change (run h (capture c) s = Some (s', evs, res)) in Hrun. rewrite Hrun.
  apply (run_n_enters h) in Hrun as (k & Hk & Hbound & Hcalls).
  cbn [capture retry_count] in *.
  assert (k ≤ 5)%nat as Hk5 by (unfold max_retries in Hbound; lia).
  assert (length (enter_counts evs) ≤ 6)%nat as Hlen by (rewrite Hk, length_seq; lia).
  destruct res as [output | e]; [destruct (output ≫= decode) |];
    eexists _, _, _; (split; [done |]); split; (done || lia).
Qed.

End Cell.

(** X13. A cell that gets to the connection has extended the default lists
    three times over: the two kubectl calls and the azdata call each append
    the hints of their family once for every invocation, so the lists end with
    at least two copies of the kubectl hints followed by at least one copy of
    the azdata hints, and the azdata call is classified against the kubectl
    hints as well. *)
Theorem cell_accumulates_hints (d : decoders) (h : host) (namespace : string)
    (s s' : state) (evs : list event) (u pw e : string) :
  connect_cell d h namespace s = Some (s', evs, Connect u pw e) →
  ∃ n m,
    (2 ≤ n)%nat ∧ (1 ≤ m)%nat ∧ length (enter_counts evs) = (n + m)%nat ∧
    retry_lists s' !!! default_retry_hints =
      (retry_lists s !!! default_retry_hints)
        ++ copies n kubectl_hints.1.1 ++ copies m azdata_hints.1.1 ∧
    error_lists s' !!! default_error_hints =
      (error_lists s !!! default_error_hints)
        ++ copies n kubectl_hints.1.2 ++ copies m azdata_hints.1.2.
Proof.
  unfold connect_cell, fetch. intros H.
  destruct (run h (capture (secret_command namespace "username")) s)
    as [[[s1 evs1] [o1 | e1]]|] eqn:H1; [| done..].
  destruct (o1 ≫= b64decode_utf8 d) as [t1|]; [| by simplify_eq].
  destruct (run h (capture (secret_command namespace "password")) s1)
    as [[[s2 evs2] [o2 | e2]]|] eqn:H2; [| by simplify_eq..].
  destruct (o2 ≫= b64decode_utf8 d) as [t2|]; [| by simplify_eq].
  destruct (run h (capture endpoint_command) s2)
    as [[[s3 evs3] [o3 | e3]]|] eqn:H3; [| by simplify_eq..].
  destruct (o3 ≫= endpoint_of d) as [t3|]; [| by simplify_eq].
  injection H as <- <- <- <- <-.
  apply (capture_lists h _ kubectl_hints) in H1 as (Hn1 & Hr1 & He1);
    [| apply family_hints_secret].
  apply (capture_lists h _ kubectl_hints) in H2 as (Hn2 & Hr2 & He2);
    [| apply family_hints_secret].
  apply (capture_lists h _ azdata_hints) in H3 as (Hn3 & Hr3 & He3);
    [| apply family_hints_endpoint].
  exists (length (enter_counts evs1) + length (enter_counts evs2))%nat,
         (length (enter_counts evs3)).
  split_and!; [lia | done | | |].
  - rewrite !enter_counts_app, !length_app. lia.
  - rewrite Hr3, Hr2, Hr1, copies_add. by rewrite <- !app_assoc.
  - rewrite He3, He2, He1, copies_add. by rewrite <- !app_assoc.
Qed.

Lemma cell_accumulates_hints_witness :
  ∃ s' evs n m,
    connect_cell Scenes.known Scenes.cluster "bdc" Demo.fresh
    = Some (s', evs, Connect "admin" "admin" "10.0.0.4,31433") ∧
    (2 ≤ n)%nat ∧ (1 ≤ m)%nat ∧ length (enter_counts evs) = (n + m)%nat ∧
    retry_lists s' !!! default_retry_hints =
      (retry_lists Demo.fresh !!! default_retry_hints)
        ++ copies n kubectl_hints.1.1 ++ copies m azdata_hints.1.1 ∧
    error_lists s' !!! default_error_hints =
      (error_lists Demo.fresh !!! default_error_hints)
        ++ copies n kubectl_hints.1.2 ++ copies m azdata_hints.1.2.
Proof.
  destruct (connect_cell Scenes.known Scenes.cluster "bdc" Demo.fresh)
    as [[[s' evs] out]|] eqn:Hcell; [| vm_compute in Hcell; discriminate Hcell].
  assert (out = Connect "admin" "admin" "10.0.0.4,31433") as ->.
  { vm_compute in Hcell. by injection Hcell as _ _ <-. }
  destruct (cell_accumulates_hints Scenes.known Scenes.cluster "bdc" Demo.fresh s' evs
              "admin" "admin" "10.0.0.4,31433" Hcell) as (n & m & H).
  exists s', evs, n, m. split; [reflexivity | exact H].
Defined.

(** X14. Provided every process the cell starts comes to an end, as the
    processes of a [host] do, the cell makes at most eighteen invocations of
    [run] and eighteen calls of [Popen], whatever the three commands write and
    whatever their exit codes. *)
Theorem cell_is_bounded (d : decoders) (h : host) (namespace : string) (s : state) :
  ∃ s' evs out,
    connect_cell d h namespace s = Some (s', evs, out) ∧
    (popen_calls s' ≤ popen_calls s + 18)%nat ∧
    (length (enter_counts evs) ≤ 18)%nat.
Proof.
  unfold connect_cell.
  destruct (fetch_bound h (secret_command namespace "username") (b64decode_utf8 d) s)
    as (s1 & evs1 & out1 & -> & Hc1 & Hn1).
  destruct out1 as [stop | t1]; [eexists _, _, _; split; [done |]; split; lia |].
  destruct (fetch_bound h (secret_command namespace "password") (b64decode_utf8 d) s1)
    as (s2 & evs2 & out2 & -> & Hc2 & Hn2).
  destruct out2 as [stop | t2].
  { eexists _, _, _. split; [done |]. rewrite enter_counts_app, length_app. split; lia. }
  destruct (fetch_bound h endpoint_command (endpoint_of d) s2)
    as (s3 & evs3 & out3 & -> & Hc3 & Hn3).
  destruct out3 as [stop | t3];
    eexists _, _, _; (split; [done |]); rewrite !enter_counts_app, !length_app; split; lia.
Qed.

(** X15. Where kubectl is not on the search path the cell stops at its first
    call: the install hint for kubectl is shown, [FileNotFoundError] is what
    the cell ends with, no process has been started and the two later calls
    are not made; the kubectl hints have been appended to the default lists
    all the same. *)
Theorem cell_stops_without_kubectl (d : decoders) (h : host) (namespace : string)
    (s : state) (args : list string) :
  shlex_split h (secret_command namespace "username") = Some ("kubectl" :: args) →
  which h "kubectl" = None →
  ∃ s',
    connect_cell d h namespace s =
    Some (s', EvEnter 0 :: suggest_install (Some kubectl_hints.2),
          Stopped (FileNotFoundError "kubectl")) ∧
    popen_calls s' = popen_calls s ∧
    retry_lists s' !!! default_retry_hints =
      (retry_lists s !!! default_retry_hints) ++ kubectl_hints.1.1.
Proof.
  intros Hsplit Hwhich.
  assert (prologue h (capture (secret_command namespace "username")) s
          = (add_hints (capture (secret_command namespace "username")) kubectl_hints s,
             inr ("kubectl" :: args, Some kubectl_hints.2))) as Hpro.
  { unfold prologue. cbn [capture cmd]. rewrite Hsplit. reflexivity. }
  eexists. unfold connect_cell, fetch, run. cbn [run_n]. rewrite Hpro, Hwhich.
  split; [done |]. split; [done |].
  cbn [add_hints retry_lists capture retry_hints]. by rewrite lookup_total_insert_eq.
Qed.

Lemma cell_stops_without_kubectl_witness :
  ∃ s',
    connect_cell Scenes.known (Demo.quiet EmptyString EmptyString) "bdc" Demo.fresh =
    Some (s', EvEnter 0 :: suggest_install (Some kubectl_hints.2),
          Stopped (FileNotFoundError "kubectl")) ∧
    popen_calls s' = popen_calls Demo.fresh ∧
    retry_lists s' !!! default_retry_hints =
      (retry_lists Demo.fresh !!! default_retry_hints) ++ kubectl_hints.1.1.
Proof.
  apply (cell_stops_without_kubectl Scenes.known (Demo.quiet EmptyString EmptyString) "bdc"
           Demo.fresh
           ["get"; "secret/controller-login-secret"; "-n"; "bdc"; "-o";
            "jsonpath={.data.username}"]); reflexivity.
Defined.

(** ** Python commands *)

Section Python.

Lemma startswith_refl s : startswith s s = true.
Proof. apply startswith_prefix. exists EmptyString. by rewrite append_nil_r. Qed.

Lemma replace_from_skip s old new : replace_from (String.length s) s old new = EmptyString.
Proof. induction s as [|c s IH]; [done |]. cbn [String.length replace_from]. apply IH. Qed.

(** Replacing a text in itself leaves the replacement. *)
Lemma replace_self s new : s ≠ EmptyString → replace s s new = new.
Proof.
  intros Hs. destruct s as [|c s]; [done |]. unfold replace. cbn [replace_from].
  rewrite startswith_refl. cbn [String.length Nat.pred].
  by rewrite replace_from_skip, append_nil_r.
Qed.

End Python.

(** X16. Where [python_hints] is not defined, as in this notebook, every
    python command ends in [NameError] before anything is looked up or
    started; the locale fix-up has been made by then and stays. *)
Theorem python_command_raises_name_error (h : host) (r : request) (s : state)
    (tok : string) (args : list string) :
  startswith (cmd r) "python " = true →
  shlex_split h (cmd r) = Some (tok :: args) →
  python_hints h = None →
  run h r s = Some (set_locale h s, [EvEnter (retry_count r)], Raise (NameError "python_hints")) ∧
  popen_calls (set_locale h s) = popen_calls s ∧
  error_lists (set_locale h s) = error_lists s ∧
  retry_lists (set_locale h s) = retry_lists s ∧
  (platform_system h = "Darwin" → environ s !! "LC_ALL" = None →
   environ (set_locale h s) !! "LC_ALL" = Some "en_US.UTF-8").
Proof.
  intros Hpy Hsplit Hhints. split_and!.
  - unfold run. cbn [run_n]. unfold prologue. by rewrite Hsplit, Hpy, Hhints.
  - unfold set_locale. by destruct (_ && _).
  - unfold set_locale. by destruct (_ && _).
  - unfold set_locale. by destruct (_ && _).
  - intros Hsys Henv. unfold set_locale. rewrite Hsys, Henv. cbn.
    by rewrite lookup_insert_eq.
Qed.

Lemma python_command_raises_name_error_witness :
  run (Demo.quiet EmptyString EmptyString) (Demo.call "python -m pip list" false) Demo.fresh
  = Some (set_locale (Demo.quiet EmptyString EmptyString) Demo.fresh, [EvEnter 0],
          Raise (NameError "python_hints")) ∧
  environ (set_locale (Demo.quiet EmptyString EmptyString) Demo.fresh) !! "LC_ALL"
  = Some "en_US.UTF-8".
Proof.
  destruct (python_command_raises_name_error (Demo.quiet EmptyString EmptyString)
              (Demo.call "python -m pip list" false) Demo.fresh "python" ["-m"; "pip"; "list"]
              eq_refl eq_refl eq_refl) as (Hrun & _ & _ & _ & Henv).
  split; [exact Hrun | exact (Henv eq_refl eq_refl)].
Defined.

(** X17. Where [python_hints] is defined, a python command is looked up and
    started under the interpreter of the notebook host: the first token
    [python] is replaced by [sys.executable], the other tokens are kept, and
    the install hint is that of python. *)
Theorem python_command_uses_host_interpreter (h : host) (r : request) (s : state)
    (args : list string) (hs : hints) :
  startswith (cmd r) "python " = true →
  shlex_split h (cmd r) = Some ("python" :: args) →
  python_hints h = Some hs →
  prologue h r s = (add_hints r hs (set_locale h s), inr (sys_executable h :: args, Some hs.2)) ∧
  ∀ wb p, which h (sys_executable h) = Some wb →
          popen h (popen_calls s) (wb :: args) = Some p →
          no_output r = true →
          run h r s =
          Some (spawned (add_hints r hs (set_locale h s)),
                [EvEnter (retry_count r); EvStart (cmd r) wb; EvPopen (wb :: args) false]
                  ++ success_notice p,
                verdict r p EmptyString).
Proof.
  intros Hpy Hsplit Hhints.
  destruct (prefix_exclusive (cmd r)) as [Hex _]. destruct (Hex Hpy) as [Hku Haz].
  assert (prologue h r s
          = (add_hints r hs (set_locale h s), inr (sys_executable h :: args, Some hs.2)))
    as Hpro.
  { unfold prologue. rewrite Hsplit, Hpy, Hhints, Hku, Haz. by rewrite replace_self. }
  split; [done |]. intros wb p Hw Hpo Hno. unfold run. cbn [run_n].
  rewrite Hpro, Hw. cbn [add_hints popen_calls]. rewrite set_locale_popen_calls, Hpo, Hno.
  by rewrite finish_verdict.
Qed.

Lemma python_command_uses_host_interpreter_witness :
  let h := Demo.with_python_hints (Demo.quiet EmptyString EmptyString)
             ([], [], "[SOP - Install python]") in
  let r := Demo.call "python -m pip list" false in
  prologue h r Demo.fresh
  = (add_hints r ([], [], "[SOP - Install python]") (set_locale h Demo.fresh),
     inr (["/ads/python3"; "-m"; "pip"; "list"], Some "[SOP - Install python]")).
Proof.
  intros h r.
  exact (proj1 (python_command_uses_host_interpreter h r Demo.fresh ["-m"; "pip"; "list"]
                  ([], [], "[SOP - Install python]") eq_refl eq_refl eq_refl)).
Defined.

(** ** What a call keeps to itself *)

(** C9, as the code has it.  A call leaves one mark on the process
    environment: a python command on Darwin that finds [LC_ALL] unset sets it,
    and [run] changes nothing else there.  Each call, and each retry, has its
    own counter and its own buffer.  The invocations of a call count from the
    [retry_count] the call was given, one by one, whatever earlier calls have
    done.  The text a call returns is the standard output of the last process
    the call itself has started (empty where the streams are not read): the
    process started by its own last call of [Popen], on the executable its
    command line resolves to, with nothing of earlier attempts or earlier
    calls in it. *)
Theorem run_sets_locale_and_owns_buffer (h : host) (r : request) (s s' : state)
    (evs : list event) (res : outcome) :
  run h r s = Some (s', evs, res) →
  environ s' =
    (if fixes_locale h r s then <["LC_ALL" := "en_US.UTF-8"]> (environ s) else environ s) ∧
  enter_counts evs = seq (retry_count r) (length (enter_counts evs)) ∧
  retry_notices evs = seq (retry_count r) (length (enter_counts evs) - 1) ∧
  ∀ out, res = Return (Some out) →
    return_output r = true ∧
    ∃ p, last_started h r s s' evs p ∧
         returncode p = 0 ∧
         out = (if no_output r then EmptyString else stdout p).
Proof.
  intros Hrun. split_and!.
  - by eapply run_n_environ.
  - apply (run_n_enters h) in Hrun as (k & Hk & _). by rewrite Hk, length_seq.
  - by apply (run_n_notices h) in Hrun as (Hretry & _).
  - intros out ->. pose proof (run_n_return_shape h _ _ _ _ _ _ Hrun) as Hshape.
    apply run_runs, runs_last_started in Hrun as (p & Hp & Hres).
    unfold verdict in Hres. destruct (Z.eqb_spec (returncode p) 0); [| done].
    revert Hres Hshape. destruct (return_output r); intros Hres Hshape;
      [| discriminate Hshape].
    split; [done |]. exists p. split_and!; [done | done |]. by injection Hres as ->.
Qed.

Lemma run_sets_locale_and_owns_buffer_witness :
  let h := Demo.flaky 1 in
  let r := Demo.call "azdata bdc status" true in
  ∃ s' evs p,
    run h r Demo.fresh = Some (s', evs, Return (Some (Demo.line "ok"))) ∧
    environ s' = environ Demo.fresh ∧
    enter_counts evs = seq 0 (length (enter_counts evs)) ∧
    last_started h r Demo.fresh s' evs p ∧
    returncode p = 0 ∧
    Demo.line "ok" = stdout p.
Proof.
  intros h r.
  destruct (run h r Demo.fresh) as [[[s' evs] res]|] eqn:Hrun;
    [| vm_compute in Hrun; discriminate Hrun].
  assert (res = Return (Some (Demo.line "ok"))) as ->.
  { pose proof Hrun as Hres. vm_compute in Hres. by injection Hres as _ _ <-. }
  destruct (run_sets_locale_and_owns_buffer h r Demo.fresh s' evs _ Hrun)
    as (Henv & Henter & _ & Hbuf).
  destruct (Hbuf _ eq_refl) as (_ & p & Hp & Hcode & Hout).
  exists s', evs, p. split; [reflexivity |].
  split; [exact Henv |]. split; [exact Henter |]. split; [exact Hp |].
  split; [exact Hcode | exact Hout].
Defined.
